(** * Verification of the OSCAL component-definition utilities

    A shallow embedding of [utils/oscal/params_extractor.py],
    [utils/oscal/rules_transformer.py], [utils/oscal/__init__.py] and
    [utils/oscal/build_cd_for_product.py], followed by the properties
    that the specification states about them.

    Conventions of the embedding:
    - a Python [str] is a [string]; [dict] and [set] keyed by strings are
      stdpp's [gmap] and [gset]; a [dict] whose insertion order is
      observable (through [str]) is an association list;
    - exceptions, the module-level logger and the one mutable object
      shared between classes (the [ParameterExtractor] and the
      [ParamInfo] objects it owns) live in a state-and-exception monad
      [Py];
    - what the source imports from [ssg], [trestle], [os] and the
      file system is an interface ([Class Ssg], [Class Trestle]). *)

From Stdlib Require Import Ascii String List.
From stdpp Require Import base option list gmap sets strings pretty.

Open Scope stdpp_scope.

(* ===================================================================== *)
(** * Python built-ins used by the source                                 *)
(* ===================================================================== *)

Module Py_str.

(** [s.startswith(p)]. *)
Fixpoint startswith (s p : string) {struct p} : bool :=
  match p, s with
  | EmptyString, _ => true
  | String _ _, EmptyString => false
  | String a p', String b s' =>
      if decide (a = b) then startswith s' p' else false
  end.

(** [s.endswith(p)]. *)
Fixpoint endswith (s p : string) {struct s} : bool :=
  if decide (s = p) then true
  else match s with
       | EmptyString => false
       | String _ s' => endswith s' p
       end.

(** [s.replace("", new)]: [new] before every character and at the end. *)
Fixpoint interleave (new s : string) : string :=
  match s with
  | EmptyString => new
  | String c s' => new +:+ String c (interleave new s')
  end.

(** The left-to-right scan of [s.replace(old, new)] for a non-empty
    [old]; [skip] counts the characters of a match still to be dropped. *)
Fixpoint replace_from (old new : string) (skip : nat) (s : string) : string :=
  match s with
  | EmptyString => EmptyString
  | String c s' =>
      match skip with
      | S k => replace_from old new k s'
      | O =>
          if startswith (String c s') old
          then new +:+ replace_from old new (String.length old - 1) s'
          else String c (replace_from old new 0 s')
      end
  end.

(** [s.replace(old, new)]: every non-overlapping occurrence, leftmost
    first. *)
Definition replace (s old new : string) : string :=
  if decide (old = "") then interleave new s else replace_from old new 0 s.

(** [s.split(sep)] for a one-character separator (the only use in the
    source is [split("=")]). *)
Fixpoint split (s : string) (sep : ascii) : list string :=
  match s with
  | EmptyString => [""]
  | String c s' =>
      if decide (c = sep) then "" :: split s' sep
      else match split s' sep with
           | h :: t => String c h :: t
           | [] => [String c ""]
           end
  end.

(** [str.isspace] on the ASCII range: TAB..CR, FS..US and the space. *)
Definition isspace (c : ascii) : bool :=
  let n := nat_of_ascii c in
  (Nat.leb 9 n && Nat.leb n 13) || (Nat.leb 28 n && Nat.leb n 32).

Fixpoint lstrip (s : string) : string :=
  match s with
  | EmptyString => EmptyString
  | String c s' => if isspace c then lstrip s' else s
  end.

Fixpoint rstrip (s : string) : string :=
  match s with
  | EmptyString => EmptyString
  | String c s' =>
      match rstrip s' with
      | EmptyString => if isspace c then EmptyString else String c EmptyString
      | r => String c r
      end
  end.

(** [s.strip()]. *)
Definition strip (s : string) : string := rstrip (lstrip s).

(** [sep.join(l)]. *)
Fixpoint join (sep : string) (l : list string) : string :=
  match l with
  | [] => ""
  | [x] => x
  | x :: l' => x +:+ sep +:+ join sep l'
  end.

(** Truth value of a string: [if s:]. *)
Definition truthy (s : string) : bool := bool_decide (s ≠ "").

(** Truth value of [None]-or-string: [if x:]. *)
Definition truthy_opt (x : option string) : bool :=
  match x with Some s => truthy s | None => false end.

(** The line feed, [\n]. *)
Definition LF : string := String (ascii_of_nat 10) EmptyString.

(** [sub in s]. *)
Definition contains (s sub : string) : Prop :=
  ∃ pre post : string, s = pre +:+ sub +:+ post.

End Py_str.

Module os_path.
Import Py_str.

(** [os.path.basename(p)]: what follows the last slash. *)
Fixpoint basename (p : string) : string :=
  match p with
  | EmptyString => EmptyString
  | String c p' =>
      if existsb (λ x, bool_decide (x = "/"%char)) (list_ascii_of_string p')
      then basename p'
      else if decide (c = "/"%char) then p' else p
  end.

(** [os.path.join(a, b)] (POSIX, two arguments). *)
Definition join (a b : string) : string :=
  if startswith b "/" then b
  else if decide (a = "") then b
  else if endswith a "/" then a +:+ b
  else a +:+ "/" +:+ b.

End os_path.

(* ===================================================================== *)
(** * Exceptions, logging and the state monad                             *)
(* ===================================================================== *)

(** The exception classes the source raises or catches. *)
Inductive exn : Type :=
| ValueError (msg : string)
| FileNotFoundError (msg : string)
| RuntimeError (msg : string).


Inductive level : Type := DEBUG | INFO | WARNING.

(** A record handed to the module-level [logger]. *)
Definition LogRecord : Type := level * string.

#[global] Instance level_eq_dec : EqDecision level.
Proof. solve_decision. Defined.

#[global] Instance exn_eq_dec : EqDecision exn.
Proof. solve_decision. Defined.

(** [class ParamInfo] of params_extractor.py.  [_options] is the dict read
    from the var file, in insertion order. *)
Module ParamInfo.

Record t : Type := mk {
  _id : string;
  _description : string;
  _value : string;
  _options : list (string * string);
}.

(** [ParamInfo(param_id, description)]. *)
Definition __init__ (param_id description : string) : t :=
  mk param_id description "" [].

Definition id (p : t) : string := _id p.
Definition description (p : t) : string := _description p.
Definition default_value (p : t) : string := _value p.
Definition options (p : t) : list (string * string) := _options p.

Definition set_default_value (p : t) (value : string) : t :=
  mk (_id p) (_description p) value (_options p).

Definition set_options (p : t) (value : list (string * string)) : t :=
  mk (_id p) (_description p) (_value p) value.

#[global] Instance eq_dec : EqDecision t.
Proof. solve_decision. Defined.

End ParamInfo.

(** The mutable part of a run: the [_params_by_id] dict of the
    [ParameterExtractor] instance, holding the [ParamInfo] objects
    themselves, and what has been logged.  The dict is written only by the
    constructor; afterwards every [ParamInfo] object is reached through
    exactly one key, so a reference to such an object is modelled by its
    key. *)
Record World : Type := mkWorld {
  _params_by_id : gmap string ParamInfo.t;
  records : list LogRecord;
}.

Definition Py (A : Type) : Type := World → (exn + A) * World.

#[global] Instance Py_ret : MRet Py := λ A (a : A) w, (inr a, w).

#[global] Instance Py_bind : MBind Py := λ A B (f : A → Py B) (m : Py A) w,
  match m w with
  | (inr a, w') => f a w'
  | (inl e, w') => (inl e, w')
  end.

Definition raise {A} (e : exn) : Py A := λ w, (inl e, w).

(** [try: body / except ...: handler]; the handler answers [None] for an
    exception class that no [except] clause names, which then
    propagates.  The state reached when the exception was raised is
    kept. *)
Definition try_except {A} (body : Py A) (handler : exn → option (Py A)) : Py A :=
  λ w, match body w with
       | (inr a, w') => (inr a, w')
       | (inl e, w') =>
           match handler e with
           | Some h => h w'
           | None => (inl e, w')
           end
       end.

Definition logger (l : level) (msg : string) : Py unit :=
  λ w, (inr tt, mkWorld (_params_by_id w) (records w ++ [(l, msg)])).

(** A statement-level [for x in l: body]. *)
Fixpoint for_each {A} (l : list A) (body : A → Py unit) : Py unit :=
  match l with
  | [] => mret tt
  | x :: l' => body x ≫= λ _, for_each l' body
  end.

(** Lifting a collaborator's outcome into the monad. *)
Definition lift {A} (r : exn + A) : Py A := λ w, (r, w).

(** What a computation leaves behind. *)
Definition result {A} (r : (exn + A) * World) : exn + A := fst r.
Definition world {A} (r : (exn + A) * World) : World := snd r.

(* ===================================================================== *)
(** * Collaborators outside the repository                                *)
(* ===================================================================== *)

(** [ssg.build_yaml.Value] as far as the source reads it. *)
Record ValueYaml : Type := mkValueYaml {
  value_description : string;
  value_options : list (string * string);
}.

(** [ssg.build_yaml.Rule] after [normalize(product)], as far as the source
    reads it: the description, [is_templated()] and
    [get_template_vars(env_yaml)]. *)
Record RuleYaml : Type := mkRuleYaml {
  yaml_description : string;
  is_templated : bool;
  get_template_vars : gmap string string;
}.

(** The product yaml of [ssg.products], as far as [get_benchmark_root]
    reads it. *)
Record ProductYaml : Type := mkProductYaml {
  product_dir : string;
  benchmark_root : string;
}.

(** The file system as seen through [os.walk] and the loaders of [ssg].
    A loader either yields the parsed object or raises. *)
Class Ssg : Type := {
  product_yaml_path : string → string → string;
  load_product_yaml : string → ProductYaml;
  (** [os.walk(directory)], reduced to its [(root, files)] pairs. *)
  os_walk : string → list (string * list string);
  (** [ssg.build_yaml.Value.from_yaml(file, env_yaml)]. *)
  Value_from_yaml : string → gmap string string → exn + ValueYaml;
  (** [ssg.rules.get_rule_dir_yaml(rule_dir)]. *)
  get_rule_dir_yaml : string → string;
  (** [ssg.build_yaml.Rule.from_yaml(rule_file, env_yaml)] followed by
      [normalize(product)]. *)
  Rule_from_yaml : string → gmap string string → string → exn + RuleYaml;
}.

(** [ssg.utils.required_key] on a dict keyed by strings; of the message
    only the exception class matters to the source. *)
Definition required_key (d : gmap string string) (key : string) : Py string :=
  match d !! key with
  | Some v => mret v
  | None => raise (ValueError (key +:+ " is required but was not found"))
  end.

(** Lookup in an insertion-ordered dict. *)
Fixpoint assoc (d : list (string * string)) (key : string) : option string :=
  match d with
  | [] => None
  | (k, v) :: d' => if decide (k = key) then Some v else assoc d' key
  end.

(** [ssg.utils.required_key] on an insertion-ordered dict. *)
Definition required_key_ordered (d : list (string * string)) (key : string)
  : Py string :=
  match assoc d key with
  | Some v => mret v
  | None => raise (ValueError (key +:+ " is required but was not found"))
  end.

(* ===================================================================== *)
(** * utils/oscal/__init__.py                                             *)
(* ===================================================================== *)

Definition get_benchmark_root `{Ssg} (root product : string) : string :=
  let product_yaml_path := product_yaml_path root product in
  let product_yaml := load_product_yaml product_yaml_path in
  os_path.join (product_dir product_yaml) (benchmark_root product_yaml).

(* ===================================================================== *)
(** * utils/oscal/params_extractor.py                                     *)
(* ===================================================================== *)

Module params_extractor.
Import Py_str.

Definition VAR_FILE_EXTENSION : string := ".var".

(** The generator [find_var_files], as the list it yields. *)
Definition find_var_files `{Ssg} (directory : string) : list string :=
  '(root, files) ← os_walk directory;
  file ← files;
  if endswith file VAR_FILE_EXTENSION then [os_path.join root file] else [].

(** Writing [self._params_by_id]. *)
Definition set_params_by_id (d : gmap string ParamInfo.t) : Py unit :=
  λ w, (inr tt, mkWorld d (records w)).

(** [self._params_by_id[parameter_id] = param_obj]. *)
Definition store_param (parameter_id : string) (param_obj : ParamInfo.t)
  : Py unit :=
  λ w, (inr tt, mkWorld (<[parameter_id := param_obj]> (_params_by_id w))
                        (records w)).

(** The body of the [try] in the constructor's loop. *)
Definition add_var_file `{Ssg} (env_yaml : gmap string string) (file : string)
  : Py unit :=
  value_yaml ← lift (Value_from_yaml file env_yaml);
  let parameter_id := replace (os_path.basename file) VAR_FILE_EXTENSION "" in
  default ← required_key_ordered (value_options value_yaml) "default";
  let param_obj :=
    ParamInfo.__init__ parameter_id
      (strip (replace (value_description value_yaml) LF " ")) in
  let param_obj := ParamInfo.set_default_value param_obj default in
  let param_obj := ParamInfo.set_options param_obj (value_options value_yaml) in
  logger DEBUG ("Adding parameter " +:+ parameter_id) ;;
  store_param parameter_id param_obj.

(** One turn of the constructor's loop: the [try] and its [except
    ValueError]. *)
Definition load_var_file `{Ssg} (env_yaml : gmap string string)
  (file : string) : Py unit :=
  try_except (add_var_file env_yaml file)
    (λ e, match e with
          | ValueError msg =>
              Some (logger WARNING
                      ("Invalid var file " +:+ file +:+ ": " +:+ msg))
          | _ => None
          end).

(** The constructor's loop over the var files. *)
Definition load_var_files `{Ssg} (env_yaml : gmap string string)
  (files : list string) : Py unit :=
  for_each files (load_var_file env_yaml).

(** [ParameterExtractor.__init__]. *)
Definition __init__ `{Ssg} (root : string) (env_yaml : gmap string string)
  : Py unit :=
  product ← required_key env_yaml "product";
  set_params_by_id ∅ ;;
  let benchmark_root := get_benchmark_root root product in
  load_var_files env_yaml (find_var_files benchmark_root).

(** [ParameterExtractor.get_params_for_id]: the [ParamInfo] object
    stored under [param_id], returned by reference. *)
Definition get_params_for_id (param_id : string) : Py string :=
  λ w, match _params_by_id w !! param_id with
       | None => (inl (ValueError ("Could not find parameter " +:+ param_id)), w)
       | Some _ => (inr param_id, w)
       end.

(** [param.set_default_value(value)] through a reference. *)
Definition set_default_value (param : string) (value : string) : Py unit :=
  λ w, (inr tt,
        mkWorld (alter (λ p, ParamInfo.set_default_value p value) param
                       (_params_by_id w))
                (records w)).

(** Reading the object behind a reference. *)
Definition deref (w : World) (param : string) : option ParamInfo.t :=
  _params_by_id w !! param.

End params_extractor.

(* ===================================================================== *)
(** * utils/oscal/rules_transformer.py                                    *)
(* ===================================================================== *)

(** [class RuleInfo].  [P] is how the rule holds its [ParamInfo] objects:
    by reference while the objects may still be written ([load]), as the
    objects read through those references once they are only read
    ([transform]). *)
Module RuleInfo.

Record t (P : Type) : Type := mk {
  _id : string;
  _description : string;
  _rule_dir : string;
  _parameters : list P;
}.
Arguments mk {P} _ _ _ _.
Arguments _id {P} _.
Arguments _description {P} _.
Arguments _rule_dir {P} _.
Arguments _parameters {P} _.

Definition __init__ {P} (rule_id rule_dir : string) : t P :=
  mk rule_id "" rule_dir [].

Definition id {P} (r : t P) : string := _id r.
Definition description {P} (r : t P) : string := _description r.
Definition rule_dir {P} (r : t P) : string := _rule_dir r.
Definition parameters {P} (r : t P) : list P := _parameters r.

Definition add_description {P} (r : t P) (value : string) : t P :=
  mk (_id r) value (_rule_dir r) (_parameters r).

Definition add_parameter {P} (r : t P) (value : P) : t P :=
  mk (_id r) (_description r) (_rule_dir r) (_parameters r ++ [value]).

(** The rule as a reader sees it in world [w]: every reference replaced
    by the object it points to. *)
Definition observe (w : World) (r : t string) : t ParamInfo.t :=
  mk (_id r) (_description r) (_rule_dir r)
     (omap (params_extractor.deref w) (_parameters r)).

End RuleInfo.

(** [trestle.oscal.common.Property], as far as the source fills it. *)
Record Property : Type := mkProperty {
  prop_name : string;
  prop_value : string;
  prop_remarks : string;
}.

#[global] Instance Property_eq_dec : EqDecision Property.
Proof. solve_decision. Defined.

(** Modelled from the spec: [add_prop], which rules_transformer.py imports
    from [utils.oscal] and which is not among the sources; section 3 of the
    specification describes a property as the triple of a name, a value and
    the rule-set id it is namespaced to. *)
Definition add_prop (name value ruleset : string) : Property :=
  mkProperty name value ruleset.

(** What the source imports from [trestle.tasks.csv_to_oscal_cd]. *)
Class Trestle : Type := {
  RULE_ID : string;
  RULE_DESCRIPTION : string;
  PARAMETER_ID : string;
  PARAMETER_DESCRIPTION : string;
  PARAMETER_VALUE_DEFAULT : string;
  PARAMETER_VALUE_ALTERNATIVES : string;
  (** [_RuleSetIdMgr(i, n).get_next_rule_set_id()]. *)
  next_rule_set_id : nat → nat → string;
}.

(** Python's [str] on a dict of strings. *)
Class PyRepr : Type := { str_dict : list (string * string) → string }.

(** An entry of [rule_dirs.json]. *)
Record RuleDirEntry : Type := mkRuleDirEntry {
  dir : string;
  guide : string;
}.

(** A loop [for x in l] that updates local variables [s]. *)
Fixpoint for_fold {A S} (l : list A) (s : S) (body : S → A → Py S) : Py S :=
  match l with
  | [] => mret s
  | x :: l' => body s x ≫= λ s', for_fold l' s' body
  end.

(** [enumerate(l)]. *)
Definition enumerate {A} (l : list A) : list (nat * A) :=
  zip (seq 0 (length l)) l.

Module rules_transformer.
Import Py_str.

Definition XCCDF_VARIABLE : string := "xccdf_variable".

(** The fields of a [RulesTransformer] that are fixed after construction;
    [param_extractor] is the extractor of the [World]. *)
Record RulesTransformer : Type := mkRulesTransformer {
  rule_json : gmap string RuleDirEntry;
  root : string;
  env_yaml : gmap string string;
  product : string;
  rules_dirs_for_product : gmap string string;
}.

(** The body of the loop of [_process_rule_ids], on the local list
    [processed_rule_ids] and the local dict [params_values]. *)
Definition process_rule_id (acc : list string * gmap string string)
  (rule_id : string) : list string * gmap string string :=
  let '(processed_rule_ids, params_values) := acc in
  let parts := split rule_id "=" in
  if decide (length parts = 2) then
    let param_id := nth 0 parts "" in
    let value := nth 1 parts "" in
    (processed_rule_ids, <[param_id := value]> params_values)
  else (processed_rule_ids ++ [rule_id], params_values).

Definition _process_rule_ids (rule_ids : list string)
  : list string * gmap string string :=
  fold_left process_rule_id rule_ids ([], ∅).

Definition _from_rules_json (self : RulesTransformer) (rule_id : string)
  : option string :=
  match rule_json self !! rule_id with
  | None => None
  | Some entry => Some (dir entry)
  end.

Definition _from_product_dir (self : RulesTransformer) (rule_id : string)
  : option string :=
  if decide (rule_id ∉ dom (rules_dirs_for_product self)) then None
  else rules_dirs_for_product self !! rule_id.

Definition _new_rule_obj (self : RulesTransformer) (rule_id : string)
  : Py (RuleInfo.t string) :=
  let rule_dir := _from_rules_json self rule_id in
  let rule_dir :=
    if negb (truthy_opt rule_dir) then _from_product_dir self rule_id
    else rule_dir in
  match rule_dir with
  | Some d =>
      if negb (truthy d) then
        raise (ValueError ("Could not find rule " +:+ rule_id +:+
                           " in rules json or product directory."))
      else mret (RuleInfo.__init__ rule_id d)
  | None =>
      raise (ValueError ("Could not find rule " +:+ rule_id +:+
                         " in rules json or product directory."))
  end.

(** A missing or [None] [param_values] behaves as the empty dict. *)
Definition _get_params_ids (self : RulesTransformer) (rule_yaml : RuleYaml)
  (rule_obj : RuleInfo.t string) (param_values : gmap string string)
  : Py (RuleInfo.t string) :=
  if negb (is_templated rule_yaml) then mret rule_obj
  else
    let xccdf_variable := get_template_vars rule_yaml !! XCCDF_VARIABLE in
    match xccdf_variable with
    | Some param_id =>
        if truthy param_id then
          param ← params_extractor.get_params_for_id param_id;
          match param_values !! param_id with
          | Some value => params_extractor.set_default_value param value
          | None => mret tt
          end ;;
          mret (RuleInfo.add_parameter rule_obj param)
        else
          logger DEBUG ("Could not find " +:+ XCCDF_VARIABLE +:+
                        " for rule " +:+ RuleInfo.id rule_obj) ;;
          mret rule_obj
    | None =>
        logger DEBUG ("Could not find " +:+ XCCDF_VARIABLE +:+
                      " for rule " +:+ RuleInfo.id rule_obj) ;;
        mret rule_obj
    end.

(** The text the source makes of a rule description. *)
Definition clean_description (description : string) : string :=
  strip (replace (replace (replace description LF " ") "<p>" "") "</p>" "").

Definition _load_rule_yaml `{Ssg} (self : RulesTransformer)
  (rule_obj : RuleInfo.t string) (param_values : gmap string string)
  : Py (RuleInfo.t string) :=
  let rule_file := get_rule_dir_yaml (RuleInfo.rule_dir rule_obj) in
  rule_yaml ← lift (Rule_from_yaml rule_file (env_yaml self) (product self));
  let description := clean_description (yaml_description rule_yaml) in
  let rule_obj := RuleInfo.add_description rule_obj description in
  _get_params_ids self rule_yaml rule_obj param_values.

(** One turn of the loop of [load]: the [try] and its two [except]
    clauses, on the local lists [rule_objs] and [rule_errors]. *)
Definition load_step `{Ssg} (self : RulesTransformer)
  (params_values : gmap string string)
  (acc : list (RuleInfo.t string) * list string) (rule_id : string)
  : Py (list (RuleInfo.t string) * list string) :=
  let '(rule_objs, rule_errors) := acc in
  try_except
    (rule_obj ← _new_rule_obj self rule_id;
     rule_obj ← _load_rule_yaml self rule_obj params_values;
     mret (rule_objs ++ [rule_obj], rule_errors))
    (λ e, match e with
          | ValueError msg =>
              Some (mret (rule_objs,
                          rule_errors ++
                            ["Could not find rule " +:+ rule_id +:+ ": " +:+ msg]))
          | FileNotFoundError msg =>
              Some (mret (rule_objs,
                          rule_errors ++
                            ["Could not load rule " +:+ rule_id +:+ ": " +:+ msg]))
          | _ => None
          end).

(** The message of the aggregate error. *)
Definition error_loading_rules (rule_errors : list string) : string :=
  "Error loading rules: " +:+ "                    " +:+ LF +:+
  join ", " rule_errors.

Definition load `{Ssg} (self : RulesTransformer) (rules : list string)
  : Py (list (RuleInfo.t string)) :=
  let '(rules, params_values) := _process_rule_ids rules in
  '(rule_objs, rule_errors) ←
    for_fold rules ([], []) (load_step self params_values);
  if decide (0 < length rule_errors) then
    raise (RuntimeError (error_loading_rules rule_errors))
  else mret rule_objs.

Definition _get_params_properties `{Trestle} `{PyRepr}
  (ruleset rule_id : string) (param_info : ParamInfo.t) : list Property :=
  let id_prop := add_prop PARAMETER_ID (ParamInfo.id param_info) ruleset in
  let description_prop :=
    add_prop PARAMETER_DESCRIPTION (ParamInfo.description param_info) ruleset in
  let default_prop :=
    add_prop PARAMETER_VALUE_DEFAULT (ParamInfo.default_value param_info)
      ruleset in
  let alternative_prop :=
    add_prop PARAMETER_VALUE_ALTERNATIVES
      (str_dict (ParamInfo.options param_info)) ruleset in
  [id_prop; description_prop; default_prop; alternative_prop].

Definition _get_rule_properties `{Trestle} `{PyRepr}
  (ruleset : string) (rule_obj : RuleInfo.t ParamInfo.t) : list Property :=
  let rule_properties := [] in
  let rule_properties :=
    rule_properties ++ [add_prop RULE_ID (RuleInfo.id rule_obj) ruleset] in
  let rule_properties :=
    rule_properties ++
      [add_prop RULE_DESCRIPTION (RuleInfo.description rule_obj) ruleset] in
  fold_left
    (λ rule_properties param,
       rule_properties ++
         _get_params_properties ruleset (RuleInfo.id rule_obj) param)
    (RuleInfo.parameters rule_obj) rule_properties.

(** The body of the loop of [transform]; [n] is [len(rule_objs)]. *)
Definition transform_step `{Trestle} `{PyRepr} (n : nat)
  (rule_properties : list Property)
  (entry : nat * RuleInfo.t ParamInfo.t) : list Property :=
  let '(i, rule_obj) := entry in
  let rule_set_id := next_rule_set_id i n in
  let rule_set_props := _get_rule_properties rule_set_id rule_obj in
  rule_properties ++ rule_set_props.

Definition transform `{Trestle} `{PyRepr}
  (rule_objs : list (RuleInfo.t ParamInfo.t)) : list Property :=
  fold_left (transform_step (length rule_objs)) (enumerate rule_objs) [].

End rules_transformer.

(* ===================================================================== *)
(** * utils/oscal/build_cd_for_product.py                                 *)
(* ===================================================================== *)

(** A control or a part of the resolved catalog: its id, what
    [ControlInterface.get_label] answers for it (the empty string when the
    node carries no label) and its parts ([None] and the empty list of
    parts are the same to the source). *)
Inductive Control : Type :=
| mkControl (id : string) (label : string) (parts : list Control).

Definition control_id (c : Control) : string :=
  match c with mkControl id _ _ => id end.
Definition get_label (c : Control) : string :=
  match c with mkControl _ label _ => label end.
Definition control_parts (c : Control) : list Control :=
  match c with mkControl _ _ parts => parts end.

(** A control of a policy ([ssg.controls.Control]), as far as the source
    reads it. *)
Record PolicyControl : Type := mkPolicyControl {
  policy_control_id : string;
  notes : string;
}.

(** [trestle.oscal.component.ImplementedRequirement], as far as the source
    fills it. *)
Record ImplementedRequirement : Type := mkImplementedRequirement {
  control_id_of : string;
  description_of : string;
}.

(** [trestle.oscal.component.ControlImplementation], likewise. *)
Record ControlImplementation : Type := mkControlImplementation {
  source : string;
  implemented_requirements : list ImplementedRequirement;
}.

Module build_cd_for_product.
Import Py_str.

(** [handle_parts]: the two collections it is handed are updated in
    place and so returned here. *)
Fixpoint handle_parts (control : Control)
  (acc : gset string * gmap string string) : gset string * gmap string string :=
  match control with
  | mkControl _ _ parts =>
      fold_left
        (λ '(profile_controls, controls_by_label) part,
           let profile_controls := profile_controls ∪ {[control_id part]} in
           let label := get_label part in
           let controls_by_label :=
             if truthy label
             then <[label := control_id part]> controls_by_label
             else controls_by_label in
           handle_parts part (profile_controls, controls_by_label))
        parts acc
  end.

(** [resolve_profile_to_controls], from the controls that
    [CatalogInterface(resolved_catalog).get_all_controls_from_dict()]
    yields. *)
Definition resolve_profile_to_controls (controls : list Control)
  : gset string * gmap string string :=
  fold_left
    (λ '(profile_controls, controls_by_label) control,
       let profile_controls := profile_controls ∪ {[control_id control]} in
       let label := get_label control in
       if truthy label then
         let controls_by_label :=
           <[label := control_id control]> controls_by_label in
         handle_parts control (profile_controls, controls_by_label)
       else (profile_controls, controls_by_label))
    controls (∅, ∅).

(** The fields of a [ComponentDefinitionGenerator] the functions below
    read; [policy_controls] is what
    [controls_mgr.get_all_controls(policy_id)] yields. *)
Record ComponentDefinitionGenerator : Type := mkGenerator {
  profile_href : string;
  profile_controls : gset string;
  controls_by_label : gmap string string;
  policy_controls : list PolicyControl;
}.

Definition get_profile_control_id (self : ComponentDefinitionGenerator)
  (control_name : string) : Py (option string) :=
  if decide (control_name ∈ dom (controls_by_label self)) then
    mret (controls_by_label self !! control_name)
  else if decide (control_name ∈ profile_controls self) then
    mret (Some control_name)
  else
    logger WARNING ("Control " +:+ control_name +:+
                    " not in profile id or label") ;;
    mret None.

Definition create_implemented_requirement
  (self : ComponentDefinitionGenerator) (control : PolicyControl)
  : Py (option ImplementedRequirement) :=
  logger INFO ("Creating implemented requirement for " +:+
               policy_control_id control) ;;
  control_id ← get_profile_control_id self (policy_control_id control);
  match control_id with
  | Some cid =>
      if truthy cid then
        mret (Some (mkImplementedRequirement cid (notes control)))
      else mret None
  | None => mret None
  end.

Definition get_control_implementation (self : ComponentDefinitionGenerator)
  : Py ControlImplementation :=
  all_implement_reqs ←
    for_fold (policy_controls self) []
      (λ all_implement_reqs control,
         implemented_req ← create_implemented_requirement self control;
         match implemented_req with
         | Some req => mret (all_implement_reqs ++ [req])
         | None => mret all_implement_reqs
         end);
  mret (mkControlImplementation (profile_href self) all_implement_reqs).

End build_cd_for_product.

(* ===================================================================== *)
(** * The constructor of [RulesTransformer]                               *)
(* ===================================================================== *)

(** What the constructor of [RulesTransformer] takes from outside the
    repository: [json.load] on the opened rule-dirs file, and the two
    functions of [ssg.rules] that scan the benchmark root. *)
Class SsgRules : Type := {
  (** [open(path)] followed by [json.load]. *)
  json_load : string → exn + gmap string RuleDirEntry;
  find_rule_dirs_in_paths : list string → list string;
  get_rule_dir_id : string → string;
}.

Module rules_transformer_init.
Import rules_transformer.

(** The body of the constructor's loop over the rule directories. *)
Definition index_rule_dir `{SsgRules} (rules_dirs_for_product : gmap string string)
  (dir_path : string) : gmap string string :=
  let rule_id := get_rule_dir_id dir_path in
  <[rule_id := dir_path]> rules_dirs_for_product.

(** [RulesTransformer.__init__]; the [param_extractor] it is handed is the
    extractor of the [World]. *)
Definition __init__ `{Ssg} `{SsgRules} (root : string)
  (env_yaml : gmap string string) (rule_dirs_json_path : string)
  : Py RulesTransformer :=
  rule_dir_json ← lift (json_load rule_dirs_json_path);
  product ← required_key env_yaml "product";
  let benchmark_root := get_benchmark_root root product in
  let rules_dirs_for_product :=
    fold_left index_rule_dir (find_rule_dirs_in_paths [benchmark_root]) ∅ in
  mret (mkRulesTransformer rule_dir_json root env_yaml product
          rules_dirs_for_product).

End rules_transformer_init.

(* ===================================================================== *)
(** * The rest of [ComponentDefinitionGenerator]                          *)
(* ===================================================================== *)

(** [trestle.common.const.TRESTLE_HREF_HEADING] and the text of a
    [pathlib.Path] made of a string. *)
Class TrestlePaths : Type := {
  TRESTLE_HREF_HEADING : string;
  path_str : string → string;
}.

(** What [get_source] answers as the profile path: the [pathlib] path
    [trestle_root / local_path], or the href itself, a string. *)
Inductive ProfilePath : Type :=
| UnderRoot (trestle_root local_path : string)
| Href (profile_href : string).

(** [trestle.oscal.component.DefinedComponent], as the source builds it. *)
Record DefinedComponent : Type := mkDefinedComponent {
  component_uuid : string;
  component_title : string;
  component_type : string;
  component_description : string;
  control_implementations : list ControlImplementation;
}.

(** [trestle.oscal.component.ComponentDefinition], as far as the source
    fills it. *)
Record ComponentDefinition : Type := mkComponentDefinition {
  metadata_title : string;
  components : list DefinedComponent;
}.

Module cd_generator.
Import Py_str build_cd_for_product.

(** [sub in s] as a test. *)
Fixpoint has_substring (s sub : string) : bool :=
  startswith s sub
  || match s with
     | EmptyString => false
     | String _ s' => has_substring s' sub
     end.

(** [get_source]. *)
Definition get_source `{TrestlePaths} (trestle_root : string)
  (profile_name_or_href : string) : ProfilePath * string :=
  let profile_in_trestle_dir := negb (has_substring profile_name_or_href "://") in
  let profile_href := profile_name_or_href in
  if profile_in_trestle_dir then
    let local_path := "profiles/" +:+ profile_name_or_href +:+ "/profile.json" in
    let profile_href := TRESTLE_HREF_HEADING +:+ local_path in
    let profile_path := UnderRoot trestle_root local_path in
    (profile_path, profile_href)
  else
    let profile_path := Href profile_href in
    (profile_path, profile_href).

(** [create_cd], up to the call of [oscal_write]: the answer is the path
    and the component definition handed to it.  [product] is
    [self.product] and [fresh_uuid] what [str(uuid.uuid4())] gave. *)
Definition create_cd `{TrestlePaths} (self : ComponentDefinitionGenerator)
  (product fresh_uuid : string) (output component_definition_type : string)
  : Py (string * ComponentDefinition) :=
  logger INFO ("Creating component definition for " +:+ product) ;;
  let component_definition :=
    mkComponentDefinition ("Component definition for " +:+ product) [] in
  control_implementation ← get_control_implementation self;
  let component_definition :=
    match implemented_requirements control_implementation with
    | _ :: _ =>
        let oscal_component :=
          mkDefinedComponent fresh_uuid product component_definition_type
            product [control_implementation] in
        mkComponentDefinition (metadata_title component_definition)
          (components component_definition ++ [oscal_component])
    | [] => component_definition
    end in
  let out_path := path_str output in
  logger INFO ("Writing component definition to " +:+ out_path) ;;
  mret (out_path, component_definition).

End cd_generator.

(* ===================================================================== *)
(** * The properties, in the words of the specification                   *)
(* ===================================================================== *)

(** The properties of one rule, as section 4.4 lists them: the rule id,
    the rule description, then four properties per parameter, all under
    the rule-set id [ns]. *)
Definition spec_param_quadruple `{Trestle} `{PyRepr} (ns : string)
  (p : ParamInfo.t) : list Property :=
  [ mkProperty PARAMETER_ID (ParamInfo.id p) ns;
    mkProperty PARAMETER_DESCRIPTION (ParamInfo.description p) ns;
    mkProperty PARAMETER_VALUE_DEFAULT (ParamInfo.default_value p) ns;
    mkProperty PARAMETER_VALUE_ALTERNATIVES (str_dict (ParamInfo.options p)) ns ].

Definition spec_rule_block `{Trestle} `{PyRepr} (ns : string)
  (r : RuleInfo.t ParamInfo.t) : list Property :=
  mkProperty RULE_ID (RuleInfo.id r) ns ::
  mkProperty RULE_DESCRIPTION (RuleInfo.description r) ns ::
  (RuleInfo.parameters r ≫= spec_param_quadruple ns).

(** Section 4.4: rule 0's block, then rule 1's, and so on, the rule-set id
    of a block being a function of the rule's index and of the number of
    rules. *)
Definition spec_transform `{Trestle} `{PyRepr}
  (rules : list (RuleInfo.t ParamInfo.t)) : list Property :=
  concat (imap (λ i r, spec_rule_block (next_rule_set_id i (length rules)) r)
               rules).

(** The number of occurrences of a character. *)
Fixpoint count_char (c : ascii) (s : string) : nat :=
  match s with
  | EmptyString => 0
  | String x s' => (if decide (x = c) then 1 else 0) + count_char c s'
  end.

(** The ids of a node and of the parts below it. *)
Fixpoint all_ids (c : Control) : list string :=
  match c with
  | mkControl id _ parts => id :: concat (map all_ids parts)
  end.

(** The labels of the labeled nodes among a node and the parts below it. *)
Fixpoint all_labels (c : Control) : list string :=
  match c with
  | mkControl _ label parts =>
      (if Py_str.truthy label then [label] else []) ++
      concat (map all_labels parts)
  end.

(** Induction on a control tree. *)
Fixpoint Control_tree_ind (P : Control → Prop)
  (step : ∀ id label parts, Forall P parts → P (mkControl id label parts))
  (c : Control) : P c :=
  match c with
  | mkControl id label parts =>
      step id label parts
        ((fix go (l : list Control) : Forall P l :=
            match l with
            | [] => @List.Forall_nil _ P
            | x :: l' => @List.Forall_cons _ P x l' (Control_tree_ind P step x) (go l')
            end) parts)
  end.

(* ===================================================================== *)
(** * Vocabulary of the proofs and a worked scenario                      *)
(* ===================================================================== *)

Section vocabulary.
Import Py_str params_extractor rules_transformer build_cd_for_product.
Import cd_generator rules_transformer_init.

(** The warning of an unresolved control. *)
Definition not_in_profile (control_name : string) : LogRecord :=
  (WARNING, "Control " +:+ control_name +:+ " not in profile id or label").

(** What [handle_parts] guarantees for the parts of [c]. *)
Definition parts_indexed (c : Control) : Prop :=
  ∀ acc : gset string * gmap string string,
    acc.1 ⊆ (handle_parts c acc).1
    ∧ dom acc.2 ⊆ dom (handle_parts c acc).2
    ∧ (∀ i, i ∈ concat (map all_ids (control_parts c)) →
            i ∈ (handle_parts c acc).1)
    ∧ (∀ l, l ∈ concat (map all_labels (control_parts c)) →
            l ∈ dom (handle_parts c acc).2).

(** What is logged for one policy control. *)
Definition logged_for (self : ComponentDefinitionGenerator)
  (c : PolicyControl) : list LogRecord :=
  (INFO, "Creating implemented requirement for " +:+ policy_control_id c) ::
  match result (get_profile_control_id self (policy_control_id c)
                  (mkWorld ∅ [])) with
  | inr None => [not_in_profile (policy_control_id c)]
  | _ => []
  end.

(** The record built for one policy control, if any. *)
Definition requirement_for (self : ComponentDefinitionGenerator)
  (w : World) (c : PolicyControl) : option ImplementedRequirement :=
  match result (get_profile_control_id self (policy_control_id c) w) with
  | inr (Some cid) =>
      if truthy cid then Some (mkImplementedRequirement cid (notes c))
      else None
  | _ => None
  end.

(** An index and a policy for the scenario of the specification: the
    control ["AC-1"] resolves, ["ZZ-99"] does not. *)
Definition demo_generator : ComponentDefinitionGenerator :=
  let index :=
    resolve_profile_to_controls
      [mkControl "AC-1" "ac-1" [mkControl "AC-1_smt.a" "" []]] in
  mkGenerator "trestle://profiles/demo/profile.json" index.1 index.2
    [mkPolicyControl "AC-1" "impl note"; mkPolicyControl "ZZ-99" "none"].

(** A product tree for the examples: four var files, one of them without
    a default, and five rule directories. *)
Definition demo_value_yaml (file : string) : exn + ValueYaml :=
  if decide (file = "/bench/P1.var") then
    inr (mkValueYaml "desc" [("default", "foo"); ("alt", "bar")])
  else if decide (file = "/bench/xccdf_var.var") then
    inr (mkValueYaml "a tunable" [("default", "standard"); ("strict", "1")])
  else if decide (file = "/bench/tmout.variant.var") then
    inr (mkValueYaml "timeout" [("default", "600")])
  else if decide (file = "/bench/broken.var") then
    inr (mkValueYaml "no default here" [("alt", "bar")])
  else inl (ValueError ("cannot parse " +:+ file)).

Definition demo_rule_yaml (rule_file : string) : exn + RuleYaml :=
  if decide (rule_file = "/rules/rule_a/rule.yml") then
    inr (mkRuleYaml "<p>Set the tunable.</p>" true
           {[ "xccdf_variable" := "xccdf_var" ]})
  else if decide (rule_file = "/rules/rule_b/rule.yml") then
    inr (mkRuleYaml "Plain rule" false ∅)
  else if decide (rule_file = "/rules/rule_empty/rule.yml") then
    inr (mkRuleYaml "<p></p>" false ∅)
  else if decide (rule_file = "/rules/rule_unknown_param/rule.yml") then
    inr (mkRuleYaml "Refers to nothing" true
           {[ "xccdf_variable" := "no_such_var" ]})
  else inl (FileNotFoundError ("No such file or directory: " +:+ rule_file)).

Definition demo_ssg : Ssg := {|
  product_yaml_path root product :=
    root +:+ "/products/" +:+ product +:+ "/product.yml";
  load_product_yaml _ := mkProductYaml "/" "bench";
  os_walk directory :=
    [(directory,
      ["P1.var"; "broken.var"; "README.md"; "xccdf_var.var";
       "tmout.variant.var"])];
  Value_from_yaml file _ := demo_value_yaml file;
  get_rule_dir_yaml rule_dir := os_path.join rule_dir "rule.yml";
  Rule_from_yaml rule_file _ _ := demo_rule_yaml rule_file;
|}.

Definition demo_env_yaml : gmap string string := {[ "product" := "demo" ]}.

(** Stand-ins for the collaborators of [transform] in the scenario: names
    for the trestle constants, rule-set ids numbered from the index, and
    the rendering of a dict of plain strings. *)
Definition demo_trestle : Trestle := {|
  RULE_ID := "Rule_Id";
  RULE_DESCRIPTION := "Rule_Description";
  PARAMETER_ID := "Parameter_Id";
  PARAMETER_DESCRIPTION := "Parameter_Description";
  PARAMETER_VALUE_DEFAULT := "Parameter_Value_Default";
  PARAMETER_VALUE_ALTERNATIVES := "Parameter_Value_Alternatives";
  next_rule_set_id i _ := "rule_set_" +:+ pretty i;
|}.

Fixpoint demo_items (d : list (string * string)) : string :=
  match d with
  | [] => ""
  | [(k, v)] => "'" +:+ k +:+ "': '" +:+ v +:+ "'"
  | (k, v) :: d' => "'" +:+ k +:+ "': '" +:+ v +:+ "', " +:+ demo_items d'
  end.

Definition demo_repr : PyRepr :=
  {| str_dict d := "{" +:+ demo_items d +:+ "}" |}.

(** The [ParamInfo] the constructor builds from a var file, or the
    exception the [try] body ends with. *)
Definition parse_var_file `{Ssg} (env_yaml : gmap string string) (file : string)
  : exn + ParamInfo.t :=
  match Value_from_yaml file env_yaml with
  | inl e => inl e
  | inr value_yaml =>
      match assoc (value_options value_yaml) "default" with
      | None => inl (ValueError ("default" +:+ " is required but was not found"))
      | Some default =>
          inr (ParamInfo.mk
                 (replace (os_path.basename file) VAR_FILE_EXTENSION "")
                 (strip (replace (value_description value_yaml) LF " "))
                 default (value_options value_yaml))
      end
  end.


(** The body of the [try] of [load] for one rule id. *)
Definition attempt `{Ssg} (self : RulesTransformer)
  (params_values : gmap string string) (rule_id : string)
  : Py (RuleInfo.t string) :=
  rule_obj ← _new_rule_obj self rule_id;
  _load_rule_yaml self rule_obj params_values.

(** The directory [_new_rule_obj] settles on: the one of the rules json
    unless it is missing or empty, else the one of the product
    directory, unless that is missing or empty too. *)
Definition find_rule_dir (self : RulesTransformer) (rule_id : string)
  : option string :=
  let found :=
    if truthy_opt (_from_rules_json self rule_id)
    then _from_rules_json self rule_id
    else _from_product_dir self rule_id in
  if truthy_opt found then found else None.

(** The parameter a rule yaml refers to. *)
Definition referenced (rule_yaml : RuleYaml) : option string :=
  if is_templated rule_yaml then
    match get_template_vars rule_yaml !! XCCDF_VARIABLE with
    | Some param_id => if truthy param_id then Some param_id else None
    | None => None
    end
  else None.

Definition rule_not_found (rule_id : string) : string :=
  "Could not find rule " +:+ rule_id +:+
  " in rules json or product directory.".

(** The dict after the override of [param], if there is one. *)
Definition overridden (params_values : gmap string string) (param : string)
  (d : gmap string ParamInfo.t) : gmap string ParamInfo.t :=
  match params_values !! param with
  | Some value => alter (λ p, ParamInfo.set_default_value p value) param d
  | None => d
  end.

(** How the dict may differ after rules were loaded with the overrides
    [params_values]: an entry is as before, or it is the entry of an
    overridden parameter with the default replaced by the override. *)
Definition only_overrides (params_values : gmap string string)
  (before after : gmap string ParamInfo.t) : Prop :=
  ∀ k, after !! k = before !! k
       ∨ ∃ value p, params_values !! k = Some value
                    ∧ before !! k = Some p
                    ∧ after !! k = Some (ParamInfo.set_default_value p value).

(** The rule object the attempt for [rule_id] ends with, if it does. *)
Definition loaded `{Ssg} (self : RulesTransformer)
  (params_values : gmap string string) (w : World) (rule_id : string)
  : option (RuleInfo.t string) :=
  match result (attempt self params_values rule_id w) with
  | inr rule_obj => Some rule_obj
  | inl _ => None
  end.

(** The entry of [rule_errors] the attempt for [rule_id] ends with, if
    it ends in one of the two exception classes [load] catches. *)
Definition load_error `{Ssg} (self : RulesTransformer)
  (params_values : gmap string string) (w : World) (rule_id : string)
  : option string :=
  match result (attempt self params_values rule_id w) with
  | inl (ValueError msg) =>
      Some ("Could not find rule " +:+ rule_id +:+ ": " +:+ msg)
  | inl (FileNotFoundError msg) =>
      Some ("Could not load rule " +:+ rule_id +:+ ": " +:+ msg)
  | _ => None
  end.

(** Every parameter attached to the rule is in the dict, with the
    override as its default if there is an override for it. *)
Definition overrides_visible (params_values : gmap string string)
  (d : gmap string ParamInfo.t) (rule_obj : RuleInfo.t string) : Prop :=
  Forall (λ param,
            ∃ p, d !! param = Some p
                 ∧ ∀ value, params_values !! param = Some value →
                            ParamInfo.default_value p = value)
         (RuleInfo.parameters rule_obj).

Definition demo_transformer : rules_transformer.RulesTransformer :=
  rules_transformer.mkRulesTransformer
    (<["rule_a" := mkRuleDirEntry "/rules/rule_a" "guide"]>
     (<["rule_empty" := mkRuleDirEntry "/rules/rule_empty" "guide"]>
      (<["rule_unknown_param" :=
           mkRuleDirEntry "/rules/rule_unknown_param" "guide"]>
       (<["rule_gone" := mkRuleDirEntry "/rules/rule_gone" "guide"]> ∅))))
    "/ssg" demo_env_yaml "demo"
    {[ "rule_b" := "/rules/rule_b" ]}.

(** The world once the parameter repository is built. *)
Definition demo_world : World :=
  world (params_extractor.__init__ (H:=demo_ssg) "/ssg" demo_env_yaml
           (mkWorld ∅ [])).

(** The nodes [handle_parts] visits below a control, in the order it
    visits them, each with its id and its label. *)
Fixpoint nodes_below (c : Control) : list (string * string) :=
  match c with
  | mkControl _ _ parts =>
      concat (map (λ part, (control_id part, get_label part) :: nodes_below part)
                  parts)
  end.

(** The nodes [resolve_profile_to_controls] visits: every control, and
    the nodes below the controls that have a label. *)
Definition visited (controls : list Control) : list (string * string) :=
  controls ≫= λ control,
    (control_id control, get_label control) ::
    (if truthy (get_label control) then nodes_below control else []).

(** What visiting one node does to the two collections. *)
Definition index_node (acc : gset string * gmap string string)
  (node : string * string) : gset string * gmap string string :=
  (acc.1 ∪ {[node.1]},
   if truthy node.2 then <[node.2 := node.1]> acc.2 else acc.2).

(** The index a generator is built with. *)
Definition generator_of (controls : list Control) (href : string)
  (policy : list PolicyControl) : ComponentDefinitionGenerator :=
  mkGenerator href (resolve_profile_to_controls controls).1
    (resolve_profile_to_controls controls).2 policy.

(** The override the list asks for under a key: that of the last entry
    that is an override of the key. *)
Definition last_override (rule_ids : list string) (key : string)
  : option string :=
  (λ e, nth 1 (split e "=") "") <$>
  last (filter (λ e, length (split e "=") = 2 ∧ nth 0 (split e "=") "" = key)
               rule_ids).


Definition demo_paths : TrestlePaths :=
  {| TRESTLE_HREF_HEADING := "trestle://"; path_str s := s |}.

Definition demo_ssg_rules : SsgRules := {|
  json_load path :=
    if decide (path = "/ssg/build/rule_dirs.json")
    then inr {[ "rule_a" := mkRuleDirEntry "/rules/rule_a" "guide" ]}
    else inl (FileNotFoundError ("No such file or directory: " +:+ path));
  find_rule_dirs_in_paths _ := ["/old/rule_b"; "/rules/rule_b"; "/rules/rule_c"];
  get_rule_dir_id dir_path := os_path.basename dir_path;
|}.

End vocabulary.

(* ===================================================================== *)
(** * Strings                                                             *)
(* ===================================================================== *)

Section strings.
Import Py_str.

Lemma str_app_cons (c : ascii) (s t : string) :
  String c s +:+ t = String c (s +:+ t).
Proof. reflexivity. Qed.



Lemma str_app_assoc (s t u : string) : (s +:+ t) +:+ u = s +:+ t +:+ u.
Proof. induction s as [|c s IH]; [done|]. by rewrite !str_app_cons, IH. Qed.





Lemma split_nonempty (s : string) (sep : ascii) : split s sep ≠ [].
Proof.
  destruct s as [|c s]; simpl; [done|].
  case_decide; [done|]. by destruct (split s sep).
Qed.

(** Splitting on a character yields one part more than the character
    occurs. *)
Lemma split_length (s : string) (sep : ascii) :
  length (split s sep) = S (count_char sep s).
Proof.
  induction s as [|c s IH]; simpl; [done|].
  case_decide; simpl; [by rewrite IH|].
  pose proof (split_nonempty s sep). by destruct (split s sep).
Qed.

End strings.

(* ===================================================================== *)
(** * Rule ids and inline overrides                                       *)
(* ===================================================================== *)

Section process_rule_ids.
Import Py_str rules_transformer.

Lemma fold_process_rule_id (rule_ids processed : list string)
  (params_values : gmap string string) :
  fold_left process_rule_id rule_ids (processed, params_values) =
    (processed ++ filter (λ e, length (split e "=") ≠ 2) rule_ids,
     foldl (λ m e, <[nth 0 (split e "=") "" := nth 1 (split e "=") ""]> m)
           params_values
           (filter (λ e, length (split e "=") = 2) rule_ids)).
Proof.
  revert processed params_values.
  induction rule_ids as [|e rule_ids IH]; intros processed params_values.
  - simpl. by rewrite app_nil_r.
  - simpl. rewrite !filter_cons. case_decide as Hlen.
    + rewrite IH. rewrite decide_False by (intros Hne; by apply Hne). done.
    + rewrite IH. rewrite decide_True by done. by rewrite <- (assoc_L (++)).
Qed.

Lemma process_rule_ids_plain (rule_ids : list string) :
  (_process_rule_ids rule_ids).1 =
    filter (λ e, length (split e "=") ≠ 2) rule_ids.
Proof. unfold _process_rule_ids. by rewrite fold_process_rule_id. Qed.

Lemma dom_foldl_insert (l : list string) (m : gmap string string) :
  dom (foldl (λ m e, <[nth 0 (split e "=") "" := nth 1 (split e "=") ""]> m)
             m l) =
    dom m ∪ list_to_set ((λ e, nth 0 (split e "=") "") <$> l).
Proof.
  revert m. induction l as [|e l IH]; intros m; simpl.
  - set_solver.
  - rewrite IH, dom_insert_L. set_solver.
Qed.

(** C10. An entry of the requested list is taken as an inline override
    exactly when [split("=")] gives two parts, which is when it has
    exactly one ['=']: the plain rule ids are the other entries, in
    order, the keys of the overrides are the first parts of the entries
    with two parts, and an entry with two or more ['='] such as
    [a=b=c] stays a rule id. *)
Theorem process_rule_ids_classification (rule_ids : list string) :
  (_process_rule_ids rule_ids).1 =
    filter (λ e, length (split e "=") ≠ 2) rule_ids
  ∧ dom (_process_rule_ids rule_ids).2 =
      list_to_set ((λ e, nth 0 (split e "=") "") <$>
                   filter (λ e, length (split e "=") = 2) rule_ids)
  ∧ (∀ e, length (split e "=") = 2 ↔ count_char "=" e = 1)
  ∧ _process_rule_ids ["a=b=c"] = (["a=b=c"], ∅).
Proof.
  split; [apply process_rule_ids_plain|]. split; [|split].
  - unfold _process_rule_ids. rewrite fold_process_rule_id. simpl.
    rewrite dom_foldl_insert. set_solver.
  - intros e. rewrite split_length. lia.
  - reflexivity.
Qed.

End process_rule_ids.

(* ===================================================================== *)
(** * The rule-to-property transformer                                    *)
(* ===================================================================== *)

Section transform.
Import rules_transformer.
Context `{Trestle} `{PyRepr}.

Lemma fold_left_extend {A B} (f : A → list B) (l : list A) (acc : list B) :
  fold_left (λ acc x, acc ++ f x) l acc = acc ++ (l ≫= f).
Proof.
  revert acc. induction l as [|x l IH]; intros acc; simpl.
  - by rewrite app_nil_r.
  - rewrite IH. by rewrite <- (assoc_L (++)).
Qed.


Lemma get_rule_properties_block (ns : string) (r : RuleInfo.t ParamInfo.t) :
  _get_rule_properties ns r = spec_rule_block ns r.
Proof.
  unfold _get_rule_properties, spec_rule_block.
  rewrite (fold_left_extend
             (λ p, _get_params_properties ns (RuleInfo.id r) p)).
  reflexivity.
Qed.

Lemma fold_transform_step (n k : nat) (l : list (RuleInfo.t ParamInfo.t))
  (acc : list Property) :
  fold_left (transform_step n) (zip (seq k (length l)) l) acc =
    acc ++ concat (imap (λ i r, spec_rule_block (next_rule_set_id (k + i) n) r) l).
Proof.
  revert k acc. induction l as [|r l IH]; intros k acc.
  - simpl. by rewrite app_nil_r.
  - cbn [length seq zip_with fold_left transform_step].
    rewrite IH, get_rule_properties_block, imap_cons.
    cbn [concat]. rewrite Nat.add_0_r, <- (assoc_L (++)). do 3 f_equal.
    apply imap_ext. intros i x _. simpl. by rewrite Nat.add_succ_r.
Qed.

Lemma rule_block_namespace (ns : string) (r : RuleInfo.t ParamInfo.t) :
  prop_remarks <$> spec_rule_block ns r =
    replicate (2 + 4 * length (RuleInfo.parameters r)) ns.
Proof.
  unfold spec_rule_block. rewrite !fmap_cons.
  cbn [prop_remarks replicate Nat.add]. do 2 f_equal.
  induction (RuleInfo.parameters r) as [|p ps IH]; [done|].
  rewrite bind_cons, fmap_app, IH.
  replace (4 * length (p :: ps)) with (4 + 4 * length ps) by (simpl; lia).
  reflexivity.
Qed.

(** C7. [transform] emits, for each rule in list order, the rule-id
    property, the rule-description property and then, for each parameter
    in attachment order, the quadruple parameter id, description, default
    value and options-as-string; every property of the block of rule [i]
    carries the rule-set id [next_rule_set_id i (length rule_objs)], a
    function of the index and of the number of rules. *)
Theorem transform_order (rule_objs : list (RuleInfo.t ParamInfo.t)) :
  transform rule_objs = spec_transform rule_objs
  ∧ ∀ ns r, prop_remarks <$> spec_rule_block ns r =
              replicate (2 + 4 * length (RuleInfo.parameters r)) ns.
Proof.
  split; [|apply rule_block_namespace].
  unfold transform, enumerate, spec_transform.
  by rewrite fold_transform_step.
Qed.

End transform.

(* ===================================================================== *)
(** * The monad                                                           *)
(* ===================================================================== *)

Ltac py_unfold :=
  unfold mbind, Py_bind, mret, Py_ret, raise, lift, logger, try_except,
    result, world in *.

Lemma omap_ext_elem {A B} (f g : A → option B) (l : list A) :
  (∀ x, x ∈ l → f x = g x) → omap f l = omap g l.
Proof.
  induction l as [|x l IH]; intros Hfg; [done|].
  cbn [omap list_omap]. rewrite (Hfg x) by (by left).
  rewrite IH; [done|]. intros y Hy. apply Hfg. by right.
Qed.

Lemma bind_inr {A B} (m : Py A) (f : A → Py B) (w w' : World) (a : A) :
  m w = (inr a, w') → (m ≫= f) w = f a w'.
Proof. intros Hm. py_unfold. by rewrite Hm. Qed.

Lemma bind_assoc {A B C} (m : Py A) (f : A → Py B) (g : B → Py C) (w : World) :
  (m ≫= λ x, f x ≫= g) w = ((m ≫= f) ≫= g) w.
Proof. py_unfold. by destruct (m w) as [[e|a] w']. Qed.


(* ===================================================================== *)
(** * The control tree index and its resolver                             *)
(* ===================================================================== *)

Section resolver.
Import Py_str build_cd_for_product.

Lemma get_profile_control_id_cases (self : ComponentDefinitionGenerator)
  (control_name : string) (w : World) :
  get_profile_control_id self control_name w =
    match controls_by_label self !! control_name with
    | Some id => (inr (Some id), w)
    | None =>
        if decide (control_name ∈ profile_controls self)
        then (inr (Some control_name), w)
        else (inr None,
              mkWorld (_params_by_id w)
                      (records w ++ [not_in_profile control_name]))
    end.
Proof.
  unfold get_profile_control_id.
  destruct (controls_by_label self !! control_name) as [id|] eqn:Hl.
  - rewrite decide_True by (apply elem_of_dom; eauto). done.
  - rewrite decide_False by (by apply not_elem_of_dom).
    by case_decide.
Qed.

Lemma get_profile_control_id_result (self : ComponentDefinitionGenerator)
  (control_name : string) (w1 w2 : World) :
  result (get_profile_control_id self control_name w1) =
  result (get_profile_control_id self control_name w2).
Proof.
  rewrite !get_profile_control_id_cases.
  destruct (controls_by_label self !! control_name); [done|].
  by case_decide.
Qed.

(** C5, as the code has it.  A known label resolves to the id recorded
    for it; a name that is no label but a known id resolves to itself; any
    other name resolves to nothing, with a warning logged and nothing
    raised.  So an id of [known_ids] resolves to itself when it is not
    also a label; when it is, the label's id is the answer. *)
Theorem get_profile_control_id_spec (self : ComponentDefinitionGenerator)
  (control_name : string) (w : World) :
  get_profile_control_id self control_name w =
    match controls_by_label self !! control_name with
    | Some id => (inr (Some id), w)
    | None =>
        if decide (control_name ∈ profile_controls self)
        then (inr (Some control_name), w)
        else (inr None,
              mkWorld (_params_by_id w)
                      (records w ++
                       [(WARNING, "Control " +:+ control_name +:+
                                  " not in profile id or label")]))
    end.
Proof. apply get_profile_control_id_cases. Qed.

(** C5 as stated fails: in the index of a profile where the label of one
    control is the id of another, that id is in [known_ids] and yet does
    not resolve to itself. *)
Lemma known_id_resolves_to_other_id :
  let index :=
    resolve_profile_to_controls
      [mkControl "ac-1" "ac-2" []; mkControl "ac-2" "AC-2" []] in
  let self := mkGenerator "" index.1 index.2 [] in
  "ac-2" ∈ profile_controls self
  ∧ result (get_profile_control_id self "ac-2" (mkWorld ∅ []))
      = inr (Some "ac-1")
  ∧ result (get_profile_control_id self "ac-2" (mkWorld ∅ []))
      ≠ inr (Some "ac-2").
Proof.
  split; [by apply (bool_decide_unpack _); vm_compute|].
  split; [by vm_compute|]. by vm_compute.
Qed.

End resolver.

Section control_tree_index.
Import Py_str build_cd_for_product.

Lemma all_ids_unfold (c : Control) :
  all_ids c = control_id c :: concat (map all_ids (control_parts c)).
Proof. by destruct c. Qed.

Lemma all_labels_unfold (c : Control) :
  all_labels c =
    (if truthy (get_label c) then [get_label c] else []) ++
    concat (map all_labels (control_parts c)).
Proof. by destruct c. Qed.

(** [handle_parts] visits every part below a node, whatever the labels:
    it recurses into a part whether or not the part has a label. *)
Lemma handle_parts_indexes_parts (c : Control) : parts_indexed c.
Proof.
  induction c as [id label parts IH] using Control_tree_ind.
  unfold parts_indexed. simpl.
  induction IH as [|p ps Hp _ IHps]; intros [ids labels].
  - simpl. set_solver.
  - cbn [fold_left map concat].
    set (acc' := (ids ∪ {[control_id p]},
                  if truthy (get_label p)
                  then <[get_label p := control_id p]> labels
                  else labels)).
    destruct (Hp acc') as (Hp1 & Hp2 & Hp3 & Hp4).
    destruct (IHps (handle_parts p acc')) as (Hs1 & Hs2 & Hs3 & Hs4).
    assert (dom labels ⊆ dom acc'.2) as Hdom.
    { unfold acc'. simpl. destruct (truthy (get_label p)); [|done].
      rewrite dom_insert_L. set_solver. }
    assert (∀ l, l ∈ (if truthy (get_label p) then [get_label p] else []) →
                 l ∈ dom acc'.2) as Hlab.
    { unfold acc'. simpl. intros l. destruct (truthy (get_label p)).
      - rewrite dom_insert_L. set_solver.
      - by intros ?%elem_of_nil. }
    split; [|split; [|split]].
    + simpl. unfold acc' in Hp1. simpl in Hp1. set_solver.
    + simpl in *. set_solver.
    + intros i. rewrite all_ids_unfold, elem_of_app, elem_of_cons.
      intros [[->|Hi]|Hi].
      * apply Hs1, Hp1. unfold acc'. simpl. set_solver.
      * by apply Hs1, Hp3.
      * by apply Hs3.
    + intros l. rewrite all_labels_unfold, !elem_of_app.
      intros [[Hl|Hl]|Hl].
      * by apply Hs2, Hp2, Hlab.
      * by apply Hs2, Hp4.
      * by apply Hs4.
Qed.

(** The body of the loop of [resolve_profile_to_controls] never loses an
    id or a label. *)
Lemma resolve_fold_mono (controls : list Control)
  (acc : gset string * gmap string string) :
  let body := λ '(profile_controls, controls_by_label) control,
    let profile_controls := profile_controls ∪ {[control_id control]} in
    let label := get_label control in
    if truthy label then
      let controls_by_label :=
        <[label := control_id control]> controls_by_label in
      handle_parts control (profile_controls, controls_by_label)
    else (profile_controls, controls_by_label) in
  acc.1 ⊆ (fold_left body controls acc).1
  ∧ dom acc.2 ⊆ dom (fold_left body controls acc).2
  ∧ ∀ c, c ∈ controls →
      control_id c ∈ (fold_left body controls acc).1
      ∧ (truthy (get_label c) →
         (∀ i, i ∈ all_ids c → i ∈ (fold_left body controls acc).1)
         ∧ (∀ l, l ∈ all_labels c →
                 l ∈ dom (fold_left body controls acc).2)).
Proof.
  intros body. revert acc.
  induction controls as [|c cs IH]; intros [ids labels].
  - simpl. split; [done|]. split; [done|]. by intros c ?%elem_of_nil.
  - cbn [fold_left].
    destruct (IH (body (ids, labels) c)) as (Hs1 & Hs2 & Hs3).
    assert (ids ∪ {[control_id c]} ⊆ (body (ids, labels) c).1
            ∧ dom labels ⊆ dom (body (ids, labels) c).2
            ∧ (truthy (get_label c) →
               (∀ i, i ∈ all_ids c → i ∈ (body (ids, labels) c).1)
               ∧ (∀ l, l ∈ all_labels c →
                       l ∈ dom (body (ids, labels) c).2)))
      as (Hb1 & Hb2 & Hb3).
    { unfold body. destruct (truthy (get_label c)) eqn:Hl.
      - destruct (handle_parts_indexes_parts c
                    (ids ∪ {[control_id c]},
                     <[get_label c := control_id c]> labels))
          as (Hp1 & Hp2 & Hp3 & Hp4).
        simpl in Hp1, Hp2. rewrite dom_insert_L in Hp2.
        split; [done|]. split; [set_solver|]. intros _. split.
        + intros i. rewrite all_ids_unfold, elem_of_cons.
          intros [->|Hi]; [set_solver|by apply Hp3].
        + intros l. rewrite all_labels_unfold, Hl, elem_of_app.
          intros [Hin|Hin]; [|by apply Hp4].
          apply list_elem_of_singleton in Hin as ->. set_solver.
      - simpl. split; [done|]. split; [done|]. by intros []. }
    split; [set_solver|]. split; [set_solver|].
    intros c' [->|Hc']%elem_of_cons.
    + split; [set_solver|]. intros Hl. destruct (Hb3 Hl) as [Hi Hla].
      split; [intros i Hin; by apply Hs1, Hi|].
      intros l Hin. by apply Hs2, Hla.
    + by apply Hs3.
Qed.

(** Below a labeled root control everything is indexed; of a root
    control without a label only the id is. *)
Lemma resolve_profile_to_controls_indexed (controls : list Control)
  (c : Control) :
  c ∈ controls →
  control_id c ∈ (resolve_profile_to_controls controls).1
  ∧ (truthy (get_label c) →
     (∀ i, i ∈ all_ids c → i ∈ (resolve_profile_to_controls controls).1)
     ∧ (∀ l, l ∈ all_labels c →
             l ∈ dom (resolve_profile_to_controls controls).2)).
Proof.
  intros Hc. unfold resolve_profile_to_controls.
  by apply (resolve_fold_mono controls (∅, ∅)).
Qed.

(** C1 fails on the code.  [resolve_profile_to_controls] calls
    [handle_parts] only under [if label:], so the parts of a control
    without a label are never visited: neither the id of such a part
    nor its label reaches the index, although both are in the tree. *)
Theorem parts_of_unlabeled_control_not_indexed :
  let tree := [mkControl "AC-1" "" [mkControl "AC-1_smt.a" "a." []]] in
  let index := resolve_profile_to_controls tree in
  "AC-1_smt.a" ∈ (tree ≫= all_ids)
  ∧ "a." ∈ (tree ≫= all_labels)
  ∧ "AC-1" ∈ index.1
  ∧ "AC-1_smt.a" ∉ index.1
  ∧ index.2 !! "a." = None.
Proof.
  split_and!.
  - by apply (bool_decide_unpack _); vm_compute.
  - by apply (bool_decide_unpack _); vm_compute.
  - by apply (bool_decide_unpack _); vm_compute.
  - by apply (bool_decide_unpack _); vm_compute.
  - by vm_compute.
Qed.

End control_tree_index.

(* ===================================================================== *)
(** * Control implementations                                             *)
(* ===================================================================== *)

Section control_implementation.
Import Py_str build_cd_for_product.

Lemma create_implemented_requirement_cases
  (self : ComponentDefinitionGenerator) (c : PolicyControl) (w : World) :
  create_implemented_requirement self c w =
    (inr (requirement_for self w c),
     mkWorld (_params_by_id w) (records w ++ logged_for self c)).
Proof.
  unfold create_implemented_requirement, requirement_for, logged_for.
  py_unfold. rewrite !get_profile_control_id_cases. simpl.
  destruct (controls_by_label self !! policy_control_id c) as [cid|].
  - simpl. by destruct (truthy cid).
  - case_decide; simpl.
    + by destruct (truthy (policy_control_id c)).
    + by rewrite <- (assoc_L (++)).
Qed.

Lemma requirement_for_world (self : ComponentDefinitionGenerator)
  (w1 w2 : World) (c : PolicyControl) :
  requirement_for self w1 c = requirement_for self w2 c.
Proof.
  unfold requirement_for.
  by rewrite (get_profile_control_id_result self _ w1 w2).
Qed.

Lemma implemented_requirements_loop (self : ComponentDefinitionGenerator)
  (cs : list PolicyControl) (acc : list ImplementedRequirement) (w : World) :
  for_fold cs acc
    (λ all_implement_reqs control,
       implemented_req ← create_implemented_requirement self control;
       match implemented_req with
       | Some req => mret (all_implement_reqs ++ [req])
       | None => mret all_implement_reqs
       end) w =
  (inr (acc ++ omap (requirement_for self w) cs),
   mkWorld (_params_by_id w) (records w ++ (cs ≫= logged_for self))).
Proof.
  revert acc w. induction cs as [|c cs IH]; intros acc w.
  - simpl. rewrite !app_nil_r. by destruct w.
  - cbn [for_fold].
    set (w1 := mkWorld (_params_by_id w) (records w ++ logged_for self c)).
    erewrite bind_inr with
      (a := acc ++ option_list (requirement_for self w c)) (w' := w1).
    + rewrite IH. cbn [omap list_omap]. rewrite bind_cons. simpl.
      rewrite <- !(assoc_L (++)).
      replace (omap (requirement_for self w1) cs)
        with (omap (requirement_for self w) cs).
      * by destruct (requirement_for self w c).
      * apply omap_ext_elem. intros ? _. apply requirement_for_world.
    + erewrite bind_inr by apply create_implemented_requirement_cases.
      destruct (requirement_for self w c); simpl; [done|].
      by rewrite app_nil_r.
Qed.

Lemma get_control_implementation_cases (self : ComponentDefinitionGenerator)
  (w : World) :
  get_control_implementation self w =
    (inr (mkControlImplementation (profile_href self)
            (omap (requirement_for self w) (policy_controls self))),
     mkWorld (_params_by_id w)
             (records w ++ (policy_controls self ≫= logged_for self))).
Proof.
  unfold get_control_implementation.
  erewrite bind_inr by apply implemented_requirements_loop. done.
Qed.



(** The scenario of section 8: one record, for ["AC-1"], and the warning
    for ["ZZ-99"]. *)
Example control_implementation_of_scenario :
  get_control_implementation demo_generator (mkWorld ∅ [])
  = (inr (mkControlImplementation "trestle://profiles/demo/profile.json"
            [mkImplementedRequirement "AC-1" "impl note"]),
     mkWorld ∅
       [ (INFO, "Creating implemented requirement for AC-1");
         (INFO, "Creating implemented requirement for ZZ-99");
         (WARNING, "Control ZZ-99 not in profile id or label") ]).
Proof. vm_compute. reflexivity. Qed.

End control_implementation.

(* ===================================================================== *)
(** * The parameter repository                                            *)
(* ===================================================================== *)

Section parameter_repository.
Import Py_str params_extractor.
Context `{Ssg}.

Lemma load_var_file_cases (env_yaml : gmap string string) (file : string)
  (w : World) :
  load_var_file env_yaml file w =
    match parse_var_file env_yaml file with
    | inr p =>
        (inr tt,
         mkWorld (<[ParamInfo.id p := p]> (_params_by_id w))
                 (records w ++ [(DEBUG, "Adding parameter " +:+ ParamInfo.id p)]))
    | inl (ValueError msg) =>
        (inr tt,
         mkWorld (_params_by_id w)
                 (records w ++
                  [(WARNING, "Invalid var file " +:+ file +:+ ": " +:+ msg)]))
    | inl e => (inl e, w)
    end.
Proof.
  unfold load_var_file, add_var_file, parse_var_file, required_key_ordered,
    store_param.
  py_unfold.
  destruct (Value_from_yaml file env_yaml) as [[]|y]; try done.
  destruct (assoc (value_options y) "default"); done.
Qed.





Lemma get_params_for_id_cases (param_id : string) (w : World) :
  get_params_for_id param_id w =
    match _params_by_id w !! param_id with
    | Some _ => (inr param_id, w)
    | None => (inl (ValueError ("Could not find parameter " +:+ param_id)), w)
    end.
Proof. unfold get_params_for_id. by destruct (_params_by_id w !! param_id). Qed.



End parameter_repository.

Section parameter_repository_examples.
Import Py_str params_extractor.


(** The round trip of section 8 of the specification. *)
Example parameter_repository_round_trip :
  let built := world (__init__ (H:=demo_ssg) "/ssg" demo_env_yaml (mkWorld ∅ [])) in
  deref built "P1" =
    Some (ParamInfo.mk "P1" "desc" "foo" [("default", "foo"); ("alt", "bar")])
  ∧ result (get_params_for_id "P1" built) = inr "P1"
  ∧ result (get_params_for_id "missing" built)
    = inl (ValueError "Could not find parameter missing")
  ∧ deref built "broken" = None.
Proof. split_and!; vm_compute; reflexivity. Qed.

End parameter_repository_examples.

Section parameter_id.
Import Py_str params_extractor.

(** For a base name whose stem has no [.var] inside, [replace] strips the
    suffix and nothing else. *)
Lemma parameter_id_of_plain_stem (stem : string) :
  ¬ contains stem VAR_FILE_EXTENSION →
  replace (stem +:+ VAR_FILE_EXTENSION) VAR_FILE_EXTENSION "" = stem.
Proof.
  unfold replace, VAR_FILE_EXTENSION. rewrite decide_False by done.
  induction stem as [|c stem IH]; intros Hno; [done|].
  rewrite str_app_cons. cbn [replace_from].
  assert (startswith (String c (stem +:+ ".var")) ".var" = false) as ->.
  { destruct (startswith (String c (stem +:+ ".var")) ".var") eqn:Hs; [|done].
    exfalso. simpl in Hs. case_decide; [subst c|done].
    destruct stem as [|c1 stem]; [done|]. rewrite str_app_cons in Hs.
    case_decide; [subst c1|done].
    destruct stem as [|c2 stem]; [done|]. rewrite str_app_cons in Hs.
    case_decide; [subst c2|done].
    destruct stem as [|c3 stem]; [done|]. rewrite str_app_cons in Hs.
    case_decide; [subst c3|done].
    apply Hno. by exists "", stem. }
  f_equal. apply IH. intros (pre & post & ->).
  apply Hno. by exists (String c pre), post.
Qed.

Context `{Ssg}.

(** C4 fails on the code.  The id is computed with [replace], which
    removes every [.var] of the base name and not only the suffix: the
    var file [tmout.variant.var] is stored under [tmoutiant], and nothing
    is stored under [tmout.variant]. *)
Theorem var_inside_name_is_removed (env_yaml : gmap string string)
  (value_yaml : ValueYaml) (default : string) (w : World) :
  Value_from_yaml "/bench/tmout.variant.var" env_yaml = inr value_yaml →
  assoc (value_options value_yaml) "default" = Some default →
  let file := "/bench/tmout.variant.var" in
  let w' := world (load_var_file env_yaml file w) in
  os_path.basename file = "tmout.variant" +:+ VAR_FILE_EXTENSION
  ∧ ParamInfo.id <$> _params_by_id w' !! "tmoutiant" = Some "tmoutiant"
  ∧ _params_by_id w' !! "tmout.variant" = _params_by_id w !! "tmout.variant".
Proof.
  intros Hyaml Hdefault file w'. split; [reflexivity|].
  unfold w', file. rewrite load_var_file_cases.
  unfold parse_var_file. rewrite Hyaml, Hdefault.
  replace (replace (os_path.basename "/bench/tmout.variant.var")
             VAR_FILE_EXTENSION "") with "tmoutiant" by (by vm_compute).
  unfold world. cbn [snd _params_by_id ParamInfo.id ParamInfo._id]. split.
  - by rewrite lookup_insert_eq.
  - by rewrite lookup_insert_ne.
Qed.

End parameter_id.

Lemma var_inside_name_is_removed_witness :
  let file := "/bench/tmout.variant.var" in
  let w' := world (params_extractor.load_var_file (H:=demo_ssg) demo_env_yaml
                     file (mkWorld ∅ [])) in
  os_path.basename file = "tmout.variant" +:+ params_extractor.VAR_FILE_EXTENSION
  ∧ ParamInfo.id <$> _params_by_id w' !! "tmoutiant" = Some "tmoutiant"
  ∧ _params_by_id w' !! "tmout.variant"
    = _params_by_id (mkWorld ∅ []) !! "tmout.variant".
Proof.
  apply (var_inside_name_is_removed (H:=demo_ssg) demo_env_yaml
           (mkValueYaml "timeout" [("default", "600")]) "600" (mkWorld ∅ [])).
  - vm_compute. reflexivity.
  - vm_compute. reflexivity.
Defined.

(* ===================================================================== *)
(** * Loading rules                                                       *)
(* ===================================================================== *)

Section rule_loading.
Import Py_str rules_transformer params_extractor.
Context `{Ssg}.

Lemma new_rule_obj_cases (self : RulesTransformer) (rule_id : string)
  (w : World) :
  _new_rule_obj self rule_id w =
    match find_rule_dir self rule_id with
    | Some d => (inr (RuleInfo.__init__ rule_id d), w)
    | None => (inl (ValueError (rule_not_found rule_id)), w)
    end.
Proof.
  unfold _new_rule_obj, find_rule_dir, rule_not_found.
  destruct (truthy_opt (_from_rules_json self rule_id)) eqn:Hjson; simpl.
  - rewrite Hjson.
    destruct (_from_rules_json self rule_id) as [d|]; [|done].
    simpl in Hjson. by rewrite Hjson.
  - destruct (_from_product_dir self rule_id) as [d|]; [|done].
    simpl. by destruct (truthy d).
Qed.

Lemma get_params_ids_cases (self : RulesTransformer) (rule_yaml : RuleYaml)
  (rule_obj : RuleInfo.t string) (params_values : gmap string string)
  (w : World) :
  _get_params_ids self rule_yaml rule_obj params_values w =
    match referenced rule_yaml with
    | None =>
        (inr rule_obj,
         if is_templated rule_yaml
         then mkWorld (_params_by_id w)
                (records w ++
                 [(DEBUG, "Could not find " +:+ XCCDF_VARIABLE +:+
                          " for rule " +:+ RuleInfo.id rule_obj)])
         else w)
    | Some param =>
        match _params_by_id w !! param with
        | None =>
            (inl (ValueError ("Could not find parameter " +:+ param)), w)
        | Some _ =>
            (inr (RuleInfo.add_parameter rule_obj param),
             mkWorld (overridden params_values param (_params_by_id w))
                     (records w))
        end
    end.
Proof.
  unfold _get_params_ids, referenced.
  destruct (is_templated rule_yaml); simpl; [|done].
  destruct (get_template_vars rule_yaml !! XCCDF_VARIABLE) as [p|]; [|done].
  destruct (truthy p); [|done].
  py_unfold. rewrite get_params_for_id_cases. unfold overridden.
  destruct (_params_by_id w !! p); [|done].
  destruct (params_values !! p); [done|]. by destruct w.
Qed.

Lemma attempt_cases (self : RulesTransformer)
  (params_values : gmap string string) (rule_id : string) (w : World) :
  attempt self params_values rule_id w =
    match find_rule_dir self rule_id with
    | None => (inl (ValueError (rule_not_found rule_id)), w)
    | Some d =>
        match Rule_from_yaml (get_rule_dir_yaml d) (env_yaml self)
                (product self) with
        | inl e => (inl e, w)
        | inr rule_yaml =>
            _get_params_ids self rule_yaml
              (RuleInfo.mk rule_id
                 (clean_description (yaml_description rule_yaml)) d [])
              params_values w
        end
    end.
Proof.
  unfold attempt. unfold mbind at 1, Py_bind.
  rewrite new_rule_obj_cases.
  destruct (find_rule_dir self rule_id) as [d|]; [|done].
  unfold _load_rule_yaml. py_unfold. simpl.
  by destruct (Rule_from_yaml (get_rule_dir_yaml d) (env_yaml self)
                 (product self)).
Qed.

Lemma only_overrides_refl (params_values : gmap string string)
  (d : gmap string ParamInfo.t) : only_overrides params_values d d.
Proof. intros k. by left. Qed.

Lemma only_overrides_trans (params_values : gmap string string)
  (d1 d2 d3 : gmap string ParamInfo.t) :
  only_overrides params_values d1 d2 →
  only_overrides params_values d2 d3 →
  only_overrides params_values d1 d3.
Proof.
  intros H12 H23 k.
  destruct (H12 k) as [E12|(v & p & Hv & Hp & E12)],
           (H23 k) as [E23|(v' & p' & Hv' & Hp' & E23)].
  - left. congruence.
  - right. exists v', p'. split_and!; congruence.
  - right. exists v, p. split_and!; congruence.
  - right. exists v, p. split_and!; [done..|].
    rewrite E23. f_equal.
    assert (v' = v) as -> by congruence.
    assert (p' = ParamInfo.set_default_value p v) as -> by congruence.
    done.
Qed.

Lemma only_overrides_dom (params_values : gmap string string)
  (d1 d2 : gmap string ParamInfo.t) :
  only_overrides params_values d1 d2 → dom d1 = dom d2.
Proof.
  intros H12. apply set_eq. intros k. rewrite !elem_of_dom.
  destruct (H12 k) as [->|(v & p & _ & -> & ->)]; [done|].
  split; eauto.
Qed.

Lemma only_overrides_overridden (params_values : gmap string string)
  (param : string) (d : gmap string ParamInfo.t) :
  only_overrides params_values d (overridden params_values param d).
Proof.
  unfold overridden. intros k.
  destruct (params_values !! param) as [v|] eqn:Hv; [|by left].
  destruct (decide (param = k)) as [->|Hne].
  - rewrite lookup_alter_eq. destruct (d !! k) as [p|] eqn:Hk; [|by left].
    right. by exists v, p.
  - left. by rewrite lookup_alter_ne.
Qed.

Lemma attempt_world (self : RulesTransformer)
  (params_values : gmap string string) (rule_id : string) (w : World) :
  only_overrides params_values (_params_by_id w)
    (_params_by_id (world (attempt self params_values rule_id w)))
  ∧ (∀ e, result (attempt self params_values rule_id w) = inl e →
          world (attempt self params_values rule_id w) = w).
Proof.
  rewrite attempt_cases.
  destruct (find_rule_dir self rule_id) as [d|];
    [|split; [apply only_overrides_refl|done]].
  destruct (Rule_from_yaml _ _ _) as [e|y];
    [split; [apply only_overrides_refl|done]|].
  rewrite get_params_ids_cases.
  destruct (referenced y) as [p|].
  - destruct (_params_by_id w !! p);
      [|split; [apply only_overrides_refl|done]].
    split; [apply only_overrides_overridden|done].
  - split; [|done]. destruct (is_templated y); apply only_overrides_refl.
Qed.

(** Whether an attempt succeeds, and with which object, depends on the
    keys of the dict only. *)
Lemma attempt_result_dom (self : RulesTransformer)
  (params_values : gmap string string) (rule_id : string) (w1 w2 : World) :
  dom (_params_by_id w1) = dom (_params_by_id w2) →
  result (attempt self params_values rule_id w1)
    = result (attempt self params_values rule_id w2).
Proof.
  intros Hdom. rewrite !attempt_cases.
  destruct (find_rule_dir self rule_id) as [d|]; [|done].
  destruct (Rule_from_yaml _ _ _) as [e|y]; [done|].
  rewrite !get_params_ids_cases.
  destruct (referenced y) as [p|]; [|done].
  destruct (_params_by_id w1 !! p) as [i1|] eqn:H1,
           (_params_by_id w2 !! p) as [i2|] eqn:H2; try done.
  - apply not_elem_of_dom in H2. rewrite <- Hdom in H2.
    apply not_elem_of_dom in H2. congruence.
  - apply not_elem_of_dom in H1. rewrite Hdom in H1.
    apply not_elem_of_dom in H1. congruence.
Qed.

End rule_loading.

Section rule_loading_loop.
Import Py_str rules_transformer params_extractor.
Context `{Ssg}.

Lemma overrides_visible_mono (params_values : gmap string string)
  (d d' : gmap string ParamInfo.t) (rule_obj : RuleInfo.t string) :
  only_overrides params_values d d' →
  overrides_visible params_values d rule_obj →
  overrides_visible params_values d' rule_obj.
Proof.
  intros Hdd' Hvis. unfold overrides_visible in *.
  eapply Forall_impl; [exact Hvis|].
  intros param (p & Hp & Hv).
  destruct (Hdd' param) as [E|(v & p' & Hpv & Hp' & E)].
  - exists p. split; [congruence|done].
  - exists (ParamInfo.set_default_value p' v). split; [done|].
    intros value Hvalue. simpl. congruence.
Qed.

Lemma attempt_overrides_visible (self : RulesTransformer)
  (params_values : gmap string string) (rule_id : string) (w : World)
  (rule_obj : RuleInfo.t string) :
  result (attempt self params_values rule_id w) = inr rule_obj →
  overrides_visible params_values
    (_params_by_id (world (attempt self params_values rule_id w))) rule_obj.
Proof.
  rewrite attempt_cases.
  destruct (find_rule_dir self rule_id) as [d|]; [|done].
  destruct (Rule_from_yaml _ _ _) as [e|y]; [done|].
  rewrite get_params_ids_cases.
  destruct (referenced y) as [param|].
  - destruct (_params_by_id w !! param) as [p|] eqn:Hp; [|done].
    intros [= <-]. apply Forall_singleton. simpl. unfold overridden.
    destruct (params_values !! param) as [v|] eqn:Hv.
    + exists (ParamInfo.set_default_value p v).
      rewrite lookup_alter_eq, Hp. split; [done|]. by intros ? [= <-].
    + exists p. split; [done|]. by intros ? [=].
  - intros [= <-]. apply Forall_nil_2.
Qed.

Lemma load_step_cases (self : RulesTransformer)
  (params_values : gmap string string)
  (rule_objs : list (RuleInfo.t string)) (rule_errors : list string)
  (rule_id : string) (w : World) :
  load_step self params_values (rule_objs, rule_errors) rule_id w =
    match result (attempt self params_values rule_id w) with
    | inr rule_obj =>
        (inr (rule_objs ++ [rule_obj], rule_errors),
         world (attempt self params_values rule_id w))
    | inl (RuntimeError msg) => (inl (RuntimeError msg), w)
    | inl _ =>
        (inr (rule_objs,
              rule_errors ++
                option_list (load_error self params_values w rule_id)), w)
    end.
Proof.
  pose proof (attempt_world self params_values rule_id w) as [_ Hw].
  unfold load_error. unfold load_step, try_except.
  rewrite (bind_assoc (_new_rule_obj self rule_id)
             (λ rule_obj, _load_rule_yaml self rule_obj params_values)
             (λ rule_obj, mret (rule_objs ++ [rule_obj], rule_errors)) w).
  change (_new_rule_obj self rule_id ≫= _)
    with (attempt self params_values rule_id).
  unfold mbind at 1, Py_bind. unfold result, world in *.
  destruct (attempt self params_values rule_id w) as [[e|obj] w1];
    simpl in *; [|done].
  rewrite (Hw e eq_refl). by destruct e.
Qed.

Lemma loaded_inr (self : RulesTransformer) (params_values : gmap string string)
  (w : World) (rule_id : string) (rule_obj : RuleInfo.t string) :
  result (attempt self params_values rule_id w) = inr rule_obj →
  loaded self params_values w rule_id = Some rule_obj
  ∧ load_error self params_values w rule_id = None.
Proof. unfold loaded, load_error. by intros ->. Qed.

Lemma loaded_inl (self : RulesTransformer) (params_values : gmap string string)
  (w : World) (rule_id : string) (e : exn) :
  result (attempt self params_values rule_id w) = inl e →
  loaded self params_values w rule_id = None.
Proof. unfold loaded. by intros ->. Qed.

Lemma omap_cons_Some {A B} (f : A → option B) (x : A) (y : B) (l : list A) :
  f x = Some y → omap f (x :: l) = y :: omap f l.
Proof. intros Hx. cbn [omap list_omap]. by rewrite Hx. Qed.

Lemma omap_cons_None {A B} (f : A → option B) (x : A) (l : list A) :
  f x = None → omap f (x :: l) = omap f l.
Proof. intros Hx. cbn [omap list_omap]. by rewrite Hx. Qed.

(** The outcome of an attempt does not change while rules are loaded,
    since loading leaves the keys of the dict as they are. *)
Lemma outcome_stable (self : RulesTransformer)
  (params_values : gmap string string) (w w1 : World) :
  only_overrides params_values (_params_by_id w) (_params_by_id w1) →
  (∀ rule_id, result (attempt self params_values rule_id w1)
              = result (attempt self params_values rule_id w))
  ∧ (∀ plain : list string,
       omap (loaded self params_values w1) plain
       = omap (loaded self params_values w) plain)
  ∧ (∀ plain : list string,
       omap (load_error self params_values w1) plain
       = omap (load_error self params_values w) plain).
Proof.
  intros Hov.
  assert (∀ rule_id, result (attempt self params_values rule_id w1)
                     = result (attempt self params_values rule_id w)) as Hres.
  { intros rule_id. apply attempt_result_dom. symmetry.
    by apply (only_overrides_dom params_values). }
  split_and!; [done| |].
  - intros plain. apply omap_ext_elem. intros rid _.
    unfold loaded. by rewrite Hres.
  - intros plain. apply omap_ext_elem. intros rid _.
    unfold load_error. by rewrite Hres.
Qed.

Lemma load_loop (self : RulesTransformer) (params_values : gmap string string)
  (plain : list string) (rule_objs : list (RuleInfo.t string))
  (rule_errors : list string) (w : World) :
  let r := for_fold plain (rule_objs, rule_errors)
             (load_step self params_values) w in
  only_overrides params_values (_params_by_id w) (_params_by_id (world r))
  ∧ match result r with
    | inr (rule_objs', rule_errors') =>
        rule_objs' = rule_objs ++ omap (loaded self params_values w) plain
        ∧ rule_errors' =
            rule_errors ++ omap (load_error self params_values w) plain
        ∧ Forall (λ rule_id,
                    is_Some (loaded self params_values w rule_id)
                    ∨ is_Some (load_error self params_values w rule_id))
                 plain
        ∧ Forall (overrides_visible params_values (_params_by_id (world r)))
                 (omap (loaded self params_values w) plain)
    | inl e =>
        ∃ rule_id, rule_id ∈ plain
                   ∧ result (attempt self params_values rule_id w) = inl e
                   ∧ load_error self params_values w rule_id = None
    end.
Proof.
  revert rule_objs rule_errors w.
  induction plain as [|rule_id plain IH]; intros rule_objs rule_errors w.
  - simpl. split; [apply only_overrides_refl|].
    rewrite !app_nil_r. split_and!; done.
  - cbn [for_fold]. unfold mbind, Py_bind. rewrite load_step_cases.
    pose proof (attempt_world self params_values rule_id w) as [Hframe _].
    destruct (result (attempt self params_values rule_id w))
      as [e|rule_obj] eqn:Hres.
    + pose proof (loaded_inl _ _ _ _ _ Hres) as Hl.
      rewrite (omap_cons_None _ _ _ Hl).
      destruct (load_error self params_values w rule_id) as [err|] eqn:He.
      * assert (load_step_out :
          match e with
          | RuntimeError msg => (inl (RuntimeError msg), w)
          | _ => (inr (rule_objs, rule_errors ++ option_list (Some err)), w)
          end = (inr (rule_objs, rule_errors ++ [err]), w)).
        { unfold load_error in He. rewrite Hres in He. by destruct e. }
        rewrite load_step_out. clear load_step_out.
        destruct (IH rule_objs (rule_errors ++ [err]) w) as [Hov Hres'].
        split; [done|].
        destruct (result (for_fold plain _ _ w)) as [e'|[objs' errs']].
        -- destruct Hres' as (rid & Hin & Hr & Hn). exists rid.
           split; [by right|done].
        -- destruct Hres' as (-> & -> & Hall & Hvis).
           rewrite (omap_cons_Some _ _ _ _ He).
           split_and!; [done|by rewrite <- (assoc_L (++))| |done].
           apply Forall_cons. split; [right; eauto|done].
      * assert (load_step_out :
          match e with
          | RuntimeError msg => (inl (RuntimeError msg), w)
          | _ => (inr (rule_objs, rule_errors ++ option_list None), w)
          end = (@inl exn (list (RuleInfo.t string) * list string) e, w)).
        { unfold load_error in He. rewrite Hres in He. by destruct e. }
        rewrite load_step_out. clear load_step_out. simpl.
        split; [apply only_overrides_refl|].
        exists rule_id. split; [by left|done].
    + pose proof (loaded_inr _ _ _ _ _ Hres) as [Hl He].
      rewrite (omap_cons_Some _ _ _ _ Hl), (omap_cons_None _ _ _ He).
      set (w1 := world (attempt self params_values rule_id w)) in *.
      destruct (outcome_stable self params_values w w1 Hframe)
        as (Hsame & Hobjs & Herrs).
      destruct (IH (rule_objs ++ [rule_obj]) rule_errors w1) as [Hov Hres'].
      split; [by eapply only_overrides_trans|].
      destruct (result (for_fold plain _ _ w1)) as [e'|[objs' errs']].
      * destruct Hres' as (rid & Hin & Hr & Hn). exists rid.
        split; [by right|]. rewrite <- Hsame. split; [done|].
        unfold load_error in *. by rewrite <- Hsame.
      * destruct Hres' as (-> & -> & Hall & Hvis).
        rewrite Hobjs in *. rewrite Herrs.
        split_and!; [by rewrite <- (assoc_L (++))|done| |].
        -- apply Forall_cons. split; [left; eauto|].
           eapply Forall_impl; [exact Hall|]. intros rid. simpl.
           unfold loaded, load_error. by rewrite Hsame.
        -- apply Forall_cons. split; [|done].
           eapply overrides_visible_mono; [exact Hov|].
           by apply attempt_overrides_visible.
Qed.

End rule_loading_loop.

Section load.
Import Py_str rules_transformer params_extractor.
Context `{Ssg}.

Lemma load_cases (self : RulesTransformer) (rule_ids : list string)
  (w : World) :
  load self rule_ids w =
    match for_fold (_process_rule_ids rule_ids).1 ([], [])
            (load_step self (_process_rule_ids rule_ids).2) w with
    | (inr (rule_objs, rule_errors), w') =>
        match rule_errors with
        | [] => (inr rule_objs, w')
        | _ :: _ => (inl (RuntimeError (error_loading_rules rule_errors)), w')
        end
    | (inl e, w') => (inl e, w')
    end.
Proof.
  unfold load. destruct (_process_rule_ids rule_ids) as [plain pv].
  unfold mbind, Py_bind. cbn [fst snd].
  destruct (for_fold plain ([], []) (load_step self pv) w)
    as [[e|[objs errs]] w']; [done|].
  destruct errs; [done|]. rewrite decide_True by (simpl; lia). done.
Qed.

Lemma load_world (self : RulesTransformer) (rule_ids : list string)
  (w : World) :
  world (load self rule_ids w) =
  world (for_fold (_process_rule_ids rule_ids).1 ([], [])
           (load_step self (_process_rule_ids rule_ids).2) w).
Proof.
  rewrite load_cases. unfold world.
  destruct (for_fold _ _ _ w) as [[e|[objs errs]] w']; [done|].
  by destruct errs.
Qed.



(** An attempt ends in a [ValueError] of the source's own or in what the
    rule loader raised. *)
Lemma attempt_error_class (self : RulesTransformer)
  (params_values : gmap string string) (w : World) (rule_id : string)
  (e : exn) :
  result (attempt self params_values rule_id w) = inl e →
  (∃ msg, e = ValueError msg)
  ∨ ∃ rule_file,
      Rule_from_yaml rule_file (env_yaml self) (product self) = inl e.
Proof.
  rewrite attempt_cases.
  destruct (find_rule_dir self rule_id) as [d|];
    [|intros [= <-]; eauto].
  destruct (Rule_from_yaml (get_rule_dir_yaml d) _ _) as [e'|y] eqn:Hy.
  - intros [= <-]. eauto.
  - rewrite get_params_ids_cases.
    destruct (referenced y) as [param|]; [|done].
    destruct (_params_by_id w !! param); [done|]. intros [= <-]. eauto.
Qed.




End load.

Section load_invariants.
Import Py_str rules_transformer params_extractor.
Context `{Ssg}.


(** C3, as the code has it.  An override is written into the
    [ParamInfo] object of the repository, which the rule holds by
    reference: after [load], every parameter attached to a returned rule
    shows the override as its default, and the repository keeps it for
    later calls.  Nothing else changes: every entry of the repository is
    as before or is the entry of an overridden parameter with only its
    default replaced. *)
Theorem overrides_written_to_repository (self : RulesTransformer)
  (rule_ids : list string) (w : World) :
  let params_values := (_process_rule_ids rule_ids).2 in
  let w' := world (load self rule_ids w) in
  (∀ k, _params_by_id w' !! k = _params_by_id w !! k
        ∨ ∃ value p,
            params_values !! k = Some value
            ∧ _params_by_id w !! k = Some p
            ∧ _params_by_id w' !! k
              = Some (ParamInfo.set_default_value p value))
  ∧ match result (load self rule_ids w) with
    | inr rule_objs =>
        Forall
          (λ rule_obj,
             Forall
               (λ param,
                  ∃ p, deref w' param = Some p
                       ∧ ∀ value, params_values !! param = Some value →
                                  ParamInfo.default_value p = value)
               (RuleInfo.parameters rule_obj))
          rule_objs
    | inl _ => True
    end.
Proof.
  intros params_values w'. unfold w', params_values. rewrite load_world.
  rewrite load_cases.
  destruct (load_loop self (_process_rule_ids rule_ids).2
              (_process_rule_ids rule_ids).1 [] [] w) as [Hov Hloop].
  split; [exact Hov|].
  unfold result, world in *.
  destruct (for_fold _ _ _ w) as [[e|[objs errs]] w1]; cbn [fst snd] in *;
    [done|].
  destruct Hloop as (-> & -> & _ & Hvis).
  by destruct (omap (load_error _ _ w) _).
Qed.

End load_invariants.

(* ===================================================================== *)
(** * The scenario of section 8 of the specification                      *)
(* ===================================================================== *)

Section load_examples.
Import Py_str rules_transformer params_extractor.


(** What the aggregate error of that batch says. *)
Example load_reports_every_failure :
  result (load (H:=demo_ssg) demo_transformer
            ["rule_a"; "xccdf_var=custom"; "nowhere"; "rule_gone"] demo_world)
  = inl (RuntimeError
           ("Error loading rules: " +:+ "                    " +:+ LF +:+
            "Could not find rule nowhere: Could not find rule nowhere in rules json or product directory." +:+
            ", " +:+
            "Could not load rule rule_gone: No such file or directory: /rules/rule_gone/rule.yml")).
Proof. vm_compute. reflexivity. Qed.


(** C3 as stated fails: the override of one call to [load] is still the
    default of the repository afterwards, and a later call without any
    override returns the rule with the overridden default. *)
Lemma override_outlives_the_batch :
  let w1 := world (load (H:=demo_ssg) demo_transformer
                     ["rule_a"; "xccdf_var=custom"] demo_world) in
  let later := load (H:=demo_ssg) demo_transformer ["rule_a"] w1 in
  ParamInfo.default_value <$> deref demo_world "xccdf_var" = Some "standard"
  ∧ ParamInfo.default_value <$> deref w1 "xccdf_var" = Some "custom"
  ∧ _params_by_id w1 ≠ _params_by_id demo_world
  ∧ match result later with
    | inr rule_objs =>
        RuleInfo.observe (world later) <$> rule_objs
        = [RuleInfo.mk "rule_a" "Set the tunable." "/rules/rule_a"
             [ParamInfo.mk "xccdf_var" "a tunable" "custom"
                [("default", "standard"); ("strict", "1")]]]
    | inl _ => False
    end.
Proof.
  split_and!.
  - vm_compute. reflexivity.
  - vm_compute. reflexivity.
  - intros Heq.
    assert (ParamInfo.default_value <$>
              _params_by_id
                (world (load (H:=demo_ssg) demo_transformer
                          ["rule_a"; "xccdf_var=custom"] demo_world))
                !! "xccdf_var" = Some "custom") as Hcustom
      by (vm_compute; reflexivity).
    rewrite Heq in Hcustom. vm_compute in Hcustom. discriminate.
  - vm_compute. reflexivity.
Qed.


Lemma overrides_written_to_repository_witness :
  ParamInfo.default_value <$>
    deref (world (load (H:=demo_ssg) demo_transformer
                    ["rule_a"; "xccdf_var=custom"] demo_world)) "xccdf_var"
  = Some "custom".
Proof.
  destruct (overrides_written_to_repository (H:=demo_ssg) demo_transformer
              ["rule_a"; "xccdf_var=custom"] demo_world) as [_ Hvisible].
  assert (result (load (H:=demo_ssg) demo_transformer
                    ["rule_a"; "xccdf_var=custom"] demo_world)
          = inr [RuleInfo.mk "rule_a" "Set the tunable." "/rules/rule_a"
                   ["xccdf_var"]]) as Hresult
    by (vm_compute; reflexivity).
  rewrite Hresult in Hvisible.
  apply Forall_cons in Hvisible as [Hrule _].
  apply Forall_cons in Hrule as [(p & Hp & Hvalue) _].
  rewrite Hp. simpl. f_equal. apply Hvalue. vm_compute. reflexivity.
Defined.

(** The rule that refers to an unknown parameter fails the batch, and the
    aggregate error names it. *)
Example unknown_parameter_fails_the_rule :
  result (load (H:=demo_ssg) demo_transformer
            ["rule_a"; "rule_unknown_param"] demo_world)
  = inl (RuntimeError
           ("Error loading rules: " +:+ "                    " +:+ LF +:+
            "Could not find rule rule_unknown_param: Could not find parameter no_such_var")).
Proof. vm_compute. reflexivity. Qed.

(** The end-to-end scenario of section 8: the rule templated on
    [xccdf_var], loaded with the override [xccdf_var=custom], yields the
    rule-id and rule-description properties and the four properties of
    the parameter, the default being the override, all under the rule-set
    id of rule 0. *)
Example end_to_end_properties :
  let r := load (H:=demo_ssg) demo_transformer
             ["rule_a"; "xccdf_var=custom"] demo_world in
  match result r with
  | inr rule_objs =>
      transform (H:=demo_trestle) (H0:=demo_repr)
        (RuleInfo.observe (world r) <$> rule_objs)
      = [ mkProperty "Rule_Id" "rule_a" "rule_set_0";
          mkProperty "Rule_Description" "Set the tunable." "rule_set_0";
          mkProperty "Parameter_Id" "xccdf_var" "rule_set_0";
          mkProperty "Parameter_Description" "a tunable" "rule_set_0";
          mkProperty "Parameter_Value_Default" "custom" "rule_set_0";
          mkProperty "Parameter_Value_Alternatives"
            "{'default': 'standard', 'strict': '1'}" "rule_set_0" ]
  | inl _ => False
  end.
Proof. vm_compute. reflexivity. Qed.

End load_examples.

(* ===================================================================== *)
(** * More on the control tree index                                      *)
(* ===================================================================== *)

Lemma filter_none {A} (P : A → Prop) `{∀ x, Decision (P x)} (l : list A) :
  Forall (λ x, ¬ P x) l → filter P l = [].
Proof.
  induction 1 as [|x l Hx _ IH]; [done|].
  by rewrite filter_cons_False.
Qed.

Section index_exact.
Import Py_str build_cd_for_product.

Lemma nodes_below_unfold (c : Control) :
  nodes_below c =
    concat (map (λ part, (control_id part, get_label part) :: nodes_below part)
                (control_parts c)).
Proof. by destruct c. Qed.

Lemma fold_index_node_app (l1 l2 : list (string * string))
  (acc : gset string * gmap string string) :
  fold_left index_node (l1 ++ l2) acc =
    fold_left index_node l2 (fold_left index_node l1 acc).
Proof. apply fold_left_app. Qed.

(** [handle_parts] is the visit, in order, of the nodes below the
    control. *)
Lemma handle_parts_visits (c : Control)
  (acc : gset string * gmap string string) :
  handle_parts c acc = fold_left index_node (nodes_below c) acc.
Proof.
  revert acc. induction c as [id label parts IH] using Control_tree_ind.
  intros acc. simpl.
  revert acc. induction IH as [|p ps Hp _ IHps]; intros [ids labels]; [done|].
  cbn [fold_left map concat]. rewrite fold_index_node_app.
  cbn [fold_left]. rewrite <- IHps. f_equal.
  rewrite Hp. done.
Qed.

Lemma resolve_profile_visits (controls : list Control) :
  resolve_profile_to_controls controls =
    fold_left index_node (visited controls) (∅, ∅).
Proof.
  unfold resolve_profile_to_controls, visited.
  generalize (∅ : gset string, ∅ : gmap string string).
  induction controls as [|c cs IH]; intros [ids labels]; [done|].
  cbn [fold_left]. rewrite bind_cons, fold_index_node_app. rewrite IH.
  f_equal. cbn [fold_left]. unfold index_node at 2. cbn [fst snd].
  destruct (truthy (get_label c)); [|done].
  by rewrite handle_parts_visits.
Qed.

Lemma fold_index_node_ids (l : list (string * string))
  (acc : gset string * gmap string string) :
  (fold_left index_node l acc).1 = acc.1 ∪ list_to_set (l.*1).
Proof.
  revert acc. induction l as [|n l IH]; intros acc; simpl.
  - set_solver.
  - rewrite IH. simpl. set_solver.
Qed.

Lemma fold_index_node_labels (l : list (string * string))
  (acc : gset string * gmap string string) (label : string) :
  (fold_left index_node l acc).2 !! label =
    match last (filter (λ n, truthy n.2 ∧ n.2 = label) l) with
    | Some n => Some n.1
    | None => acc.2 !! label
    end.
Proof.
  revert acc. induction l as [|n l IH]; intros acc; [done|].
  cbn [fold_left]. rewrite IH. rewrite filter_cons.
  unfold index_node. cbn [snd fst].
  case_decide as Hn.
  - destruct Hn as [Ht Hn]. rewrite Hn in *. rewrite last_cons.
    destruct (last (filter _ l)); [done|].
    apply Is_true_true in Ht. rewrite Ht. by rewrite lookup_insert_eq.
  - destruct (last (filter _ l)); [done|].
    destruct (truthy n.2) eqn:Ht; [|done].
    rewrite lookup_insert_ne; [done|]. intros Heq. apply Hn.
    split; [by apply Is_true_true|done].
Qed.

Lemma resolve_ids_visited (controls : list Control) :
  (resolve_profile_to_controls controls).1 = list_to_set ((visited controls).*1).
Proof.
  rewrite resolve_profile_visits, fold_index_node_ids. cbn [fst].
  by rewrite (left_id_L ∅ (∪)).
Qed.

Lemma resolve_labels_visited (controls : list Control) (label : string) :
  (resolve_profile_to_controls controls).2 !! label =
    if decide (label = "") then None
    else fst <$> last (filter (λ n, n.2 = label) (visited controls)).
Proof.
  rewrite resolve_profile_visits, fold_index_node_labels.
  cbn [snd]. rewrite lookup_empty. case_decide as Hl.
  - subst label.
    rewrite filter_none; [done|].
    apply Forall_forall. intros n _ [Ht Hn]. rewrite Hn in Ht.
    by vm_compute in Ht.
  - replace (filter (λ n : string * string, truthy n.2 ∧ n.2 = label)
               (visited controls))
      with (filter (λ n : string * string, n.2 = label) (visited controls)).
    + by destruct (last _).
    + apply list_filter_iff. intros n. split; [|by intros [_ ?]].
      intros ->. split; [|done]. unfold truthy.
      by apply bool_decide_pack.
Qed.

(** X1. [known_ids] is exactly the set of ids of the visited nodes: every
    control, and every part below a control that has a label.  Nothing
    else gets in. *)
Theorem known_ids_exact (controls : list Control) :
  (resolve_profile_to_controls controls).1 = list_to_set ((visited controls).*1).
Proof. apply resolve_ids_visited. Qed.

(** X2. [by_label] maps a label to the id of the last visited node that
    carries it, in depth-first order, and has no entry for a label no
    visited node carries; the empty label is never a key. *)
Theorem by_label_last_wins (controls : list Control) (label : string) :
  (resolve_profile_to_controls controls).2 !! label =
    if decide (label = "") then None
    else fst <$> last (filter (λ n, n.2 = label) (visited controls)).
Proof. apply resolve_labels_visited. Qed.

(** X3. Whatever the resolver answers for an index built from a profile
    is an id of [known_ids]: a label never leads outside the profile. *)
Theorem resolved_id_is_known (controls : list Control) (href : string)
  (policy : list PolicyControl) (control_name cid : string) (w : World) :
  result (get_profile_control_id (generator_of controls href policy)
            control_name w) = inr (Some cid) →
  cid ∈ profile_controls (generator_of controls href policy).
Proof.
  rewrite get_profile_control_id_cases. unfold generator_of. simpl.
  rewrite resolve_labels_visited, resolve_ids_visited.
  case_decide as Hl.
  - case_decide; [|done]. by intros [= <-].
  - destruct (last (filter _ (visited controls))) as [n|] eqn:Hlast.
    + simpl. intros [= <-]. apply last_Some_elem_of in Hlast.
      apply list_elem_of_filter in Hlast as [_ Hin].
      apply elem_of_list_to_set, list_elem_of_fmap. eauto.
    + simpl. case_decide; [|done]. by intros [= <-].
Qed.

Lemma resolved_id_is_known_witness :
  "ac-1" ∈ profile_controls
             (generator_of [mkControl "ac-1" "AC-1" [mkControl "ac-1_smt" "" []]]
                "href" []).
Proof.
  apply (resolved_id_is_known
           [mkControl "ac-1" "AC-1" [mkControl "ac-1_smt" "" []]]
           "href" [] "AC-1" "ac-1" (mkWorld ∅ [])).
  vm_compute. reflexivity.
Defined.

End index_exact.

(* ===================================================================== *)
(** * More on control implementations and the component definition       *)
(* ===================================================================== *)

Section component_definition.
Import Py_str build_cd_for_product cd_generator.

(** With non-empty ids in the index, a record is built exactly for the
    policy controls that resolve. *)
Lemma requirement_for_resolved (self : ComponentDefinitionGenerator)
  (w : World) (c : PolicyControl) :
  "" ∉ profile_controls self →
  (∀ label, controls_by_label self !! label ≠ Some "") →
  requirement_for self w c =
    match result (get_profile_control_id self (policy_control_id c) w) with
    | inr (Some cid) => Some (mkImplementedRequirement cid (notes c))
    | _ => None
    end.
Proof.
  intros Hids Hlabels. unfold requirement_for.
  rewrite get_profile_control_id_cases.
  destruct (controls_by_label self !! policy_control_id c) as [cid|] eqn:Hl.
  - simpl. unfold truthy. rewrite bool_decide_true; [done|].
    intros ->. by apply (Hlabels (policy_control_id c)).
  - case_decide as Hin; simpl; [|done].
    unfold truthy. rewrite bool_decide_true; [done|].
    intros Heq. by rewrite Heq in Hin.
Qed.

Lemma logged_for_warning (self : ComponentDefinitionGenerator)
  (c : PolicyControl) :
  length (filter (λ r : LogRecord, r.1 = WARNING) (logged_for self c)) =
    match result (get_profile_control_id self (policy_control_id c)
                    (mkWorld ∅ [])) with
    | inr None => 1
    | _ => 0
    end.
Proof.
  unfold logged_for. rewrite filter_cons_False by done.
  by destruct (result _) as [e|[cid|]].
Qed.

(** X4. With non-empty ids in the index no policy control is dropped
    silently: the records built and the warnings logged by one call add up
    to the number of policy controls. *)
Theorem every_control_recorded_or_warned (self : ComponentDefinitionGenerator)
  (w : World) :
  "" ∉ profile_controls self →
  (∀ label, controls_by_label self !! label ≠ Some "") →
  let r := get_control_implementation self w in
  ∃ ci, result r = inr ci
    ∧ take (length (records w)) (records (world r)) = records w
    ∧ length (implemented_requirements ci)
      + length (filter (λ rec : LogRecord, rec.1 = WARNING)
                  (drop (length (records w)) (records (world r))))
      = length (policy_controls self).
Proof.
  intros Hids Hlabels r. unfold r.
  rewrite get_control_implementation_cases. eexists. split; [done|].
  unfold world. cbn [snd fst records implemented_requirements].
  rewrite take_app_length, drop_app_length. split; [done|].
  induction (policy_controls self) as [|c cs IH]; [done|].
  cbn [omap list_omap]. rewrite bind_cons, filter_app, length_app.
  rewrite logged_for_warning.
  rewrite (requirement_for_resolved self w c Hids Hlabels).
  rewrite (get_profile_control_id_result self _ (mkWorld ∅ []) w).
  destruct (result (get_profile_control_id self (policy_control_id c) w))
    as [e|[cid|]] eqn:Hres; simpl in *; try lia.
  rewrite get_profile_control_id_cases in Hres.
  destruct (controls_by_label self !! policy_control_id c); [done|].
  by case_decide.
Qed.

Lemma every_control_recorded_or_warned_witness :
  let r := get_control_implementation demo_generator (mkWorld ∅ []) in
  ∃ ci, result r = inr ci
    ∧ take (length (records (mkWorld ∅ []))) (records (world r))
      = records (mkWorld ∅ [])
    ∧ length (implemented_requirements ci)
      + length (filter (λ rec : LogRecord, rec.1 = WARNING)
                  (drop (length (records (mkWorld ∅ []))) (records (world r))))
      = length (policy_controls demo_generator).
Proof.
  apply (every_control_recorded_or_warned demo_generator (mkWorld ∅ [])).
  - apply (bool_decide_unpack _). vm_compute. exact I.
  - intros label Hl.
    assert (Hall : map_Forall (λ _ v, v ≠ "") (controls_by_label demo_generator))
      by (apply (bool_decide_unpack _); vm_compute; exact I).
    by apply (Hall _ _ Hl).
Defined.

(** X5. For a generator whose index was built from a profile, building
    the control implementation never raises and every record it emits
    carries an id of [known_ids] and the notes of a policy control. *)
Theorem records_stay_in_profile (controls : list Control) (href : string)
  (policy : list PolicyControl) (w : World) :
  match result (get_control_implementation
                  (generator_of controls href policy) w) with
  | inr ci =>
      Forall (λ req,
                control_id_of req ∈ (resolve_profile_to_controls controls).1
                ∧ ∃ c, c ∈ policy ∧ description_of req = notes c)
             (implemented_requirements ci)
  | inl _ => False
  end.
Proof.
  rewrite get_control_implementation_cases. unfold result.
  cbn [fst implemented_requirements]. apply Forall_forall.
  intros req (c & Hc & Hreq)%list_elem_of_omap.
  unfold requirement_for in Hreq.
  destruct (result (get_profile_control_id _ (policy_control_id c) w))
    as [e|[cid|]] eqn:Hres; [done| |done].
  destruct (truthy cid); [|done]. injection Hreq as <-. split.
  - rewrite get_profile_control_id_cases in Hres.
    unfold generator_of in Hres. simpl in Hres.
    rewrite resolve_labels_visited, resolve_ids_visited in Hres.
    rewrite resolve_ids_visited. simpl.
    case_decide as Hl.
    + case_decide; [|done]. by injection Hres as <-.
    + destruct (last (filter _ (visited controls))) as [n|] eqn:Hlast.
      * simpl in Hres. injection Hres as <-.
        apply last_Some_elem_of in Hlast.
        apply list_elem_of_filter in Hlast as [_ Hin].
        apply elem_of_list_to_set, list_elem_of_fmap. eauto.
      * simpl in Hres. case_decide; [|done]. by injection Hres as <-.
  - exists c. done.
Qed.

Lemma create_cd_cases `{TrestlePaths} (self : ComponentDefinitionGenerator)
  (product fresh_uuid output component_definition_type : string) (w : World) :
  let ci := mkControlImplementation (profile_href self)
              (omap (requirement_for self w) (policy_controls self)) in
  result (create_cd self product fresh_uuid output component_definition_type w)
  = inr (path_str output,
         mkComponentDefinition ("Component definition for " +:+ product)
           (match implemented_requirements ci with
            | [] => []
            | _ :: _ =>
                [mkDefinedComponent fresh_uuid product
                   component_definition_type product [ci]]
            end)).
Proof.
  intros ci. unfold create_cd. py_unfold.
  rewrite get_control_implementation_cases.
  replace (omap (requirement_for self
                   (mkWorld (_params_by_id w)
                      (records w ++
                       [(INFO, "Creating component definition for " +:+ product)])))
             (policy_controls self))
    with (omap (requirement_for self w) (policy_controls self))
    by (apply omap_ext_elem; intros c _; apply requirement_for_world).
  simpl. fold ci.
  by destruct (omap (requirement_for self w) (policy_controls self)).
Qed.

(** X6. [create_cd] hands [oscal_write] a definition titled after the
    product with no component when no policy control resolves, and
    otherwise with exactly one component, named and described by the
    product, of the requested type, carrying the one control
    implementation; it does not raise before the write.  Ids of the index
    are taken to be non-empty. *)
Theorem create_cd_components `{TrestlePaths} (self : ComponentDefinitionGenerator)
  (product fresh_uuid output component_definition_type : string) (w : World) :
  "" ∉ profile_controls self →
  (∀ label, controls_by_label self !! label ≠ Some "") →
  ∃ cd,
    result (create_cd self product fresh_uuid output component_definition_type w)
    = inr (path_str output, cd)
    ∧ metadata_title cd = "Component definition for " +:+ product
    ∧ ((∀ c, c ∈ policy_controls self →
             result (get_profile_control_id self (policy_control_id c) w)
             = inr None)
       ∧ components cd = []
       ∨ (∃ c cid, c ∈ policy_controls self
                   ∧ result (get_profile_control_id self (policy_control_id c) w)
                     = inr (Some cid))
         ∧ ∃ ci, components cd =
                   [mkDefinedComponent fresh_uuid product
                      component_definition_type product [ci]]
                 ∧ source ci = profile_href self
                 ∧ implemented_requirements ci ≠ []).
Proof.
  intros Hids Hlabels. rewrite create_cd_cases. eexists.
  split; [done|]. split; [done|]. cbn [components implemented_requirements].
  destruct (omap (requirement_for self w) (policy_controls self))
    as [|req reqs] eqn:Hreqs.
  - left. split; [|done]. intros c Hc.
    assert (requirement_for self w c = None) as Hnone.
    { destruct (requirement_for self w c) as [req|] eqn:Hreq; [|done].
      assert (req ∈ omap (requirement_for self w) (policy_controls self))
        as Hin by (apply list_elem_of_omap; eauto).
      rewrite Hreqs in Hin. by apply elem_of_nil in Hin. }
    rewrite (requirement_for_resolved self w c Hids Hlabels) in Hnone.
    rewrite get_profile_control_id_cases in Hnone |- *.
    destruct (controls_by_label self !! policy_control_id c); [done|].
    by case_decide.
  - right. split.
    + assert (req ∈ omap (requirement_for self w) (policy_controls self))
        as Hin by (rewrite Hreqs; by left).
      apply list_elem_of_omap in Hin as (c & Hc & Hreq).
      rewrite (requirement_for_resolved self w c Hids Hlabels) in Hreq.
      destruct (result (get_profile_control_id self (policy_control_id c) w))
        as [e|[cid|]] eqn:Hres; [done| |done].
      exists c, cid. done.
    + eexists. split; [done|]. split; done.
Qed.

End component_definition.

Lemma create_cd_components_witness :
  ∃ cd,
    result (cd_generator.create_cd (H:=demo_paths) demo_generator "demo"
              "uuid-1" "out/cd.json" "service" (mkWorld ∅ []))
    = inr (path_str (TrestlePaths:=demo_paths) "out/cd.json", cd)
    ∧ metadata_title cd = "Component definition for " +:+ "demo"
    ∧ ((∀ c, c ∈ build_cd_for_product.policy_controls demo_generator →
             result (build_cd_for_product.get_profile_control_id demo_generator
                       (policy_control_id c) (mkWorld ∅ []))
             = inr None)
       ∧ components cd = []
       ∨ (∃ c cid, c ∈ build_cd_for_product.policy_controls demo_generator
                   ∧ result (build_cd_for_product.get_profile_control_id
                               demo_generator (policy_control_id c)
                               (mkWorld ∅ []))
                     = inr (Some cid))
         ∧ ∃ ci, components cd =
                   [mkDefinedComponent "uuid-1" "demo" "service" "demo" [ci]]
                 ∧ source ci = build_cd_for_product.profile_href demo_generator
                 ∧ implemented_requirements ci ≠ []).
Proof.
  apply (create_cd_components (H:=demo_paths) demo_generator "demo"
           "uuid-1" "out/cd.json" "service" (mkWorld ∅ [])).
  - apply (bool_decide_unpack _). vm_compute. exact I.
  - intros label Hl.
    assert (Hall : map_Forall (λ _ v, v ≠ "")
                     (build_cd_for_product.controls_by_label demo_generator))
      by (apply (bool_decide_unpack _); vm_compute; exact I).
    by apply (Hall _ _ Hl).
Defined.

(* ===================================================================== *)
(** * The source of the profile                                           *)
(* ===================================================================== *)

Section profile_source.
Import Py_str cd_generator.

Lemma startswith_app (s t p : string) :
  startswith s p = true → startswith (s +:+ t) p = true.
Proof.
  revert s. induction p as [|a p IH]; intros s; [done|].
  destruct s as [|b s]; [done|]. rewrite str_app_cons. simpl.
  case_decide; [apply IH|done].
Qed.

Lemma has_substring_app_l (s t sub : string) :
  has_substring s sub = true → has_substring (s +:+ t) sub = true.
Proof.
  induction s as [|c s IH].
  - simpl. rewrite orb_false_r. intros Hs.
    destruct sub; [|done]. by destruct t.
  - rewrite str_app_cons. cbn [has_substring].
    intros [Hs|Hs]%orb_true_iff; apply orb_true_iff.
    + left. by apply (startswith_app (String c s)).
    + right. by apply IH.
Qed.

Context `{TrestlePaths}.

(** X7. Provided the trestle heading is a scheme (it has [://] in it),
    the href [get_source] answers always has [://] in it, and handing
    that href back to [get_source] answers the same href, now with the
    href itself as the path: a name is turned into an href once. *)
Theorem get_source_href_is_fixed (trestle_root profile_name_or_href : string) :
  has_substring TRESTLE_HREF_HEADING "://" = true →
  let href := (get_source trestle_root profile_name_or_href).2 in
  has_substring href "://" = true
  ∧ get_source trestle_root href = (Href href, href)
  ∧ (has_substring profile_name_or_href "://" = true →
     href = profile_name_or_href)
  ∧ (has_substring profile_name_or_href "://" = false →
     href = TRESTLE_HREF_HEADING +:+ "profiles/" +:+ profile_name_or_href
            +:+ "/profile.json"
     ∧ (get_source trestle_root profile_name_or_href).1
       = UnderRoot trestle_root
           ("profiles/" +:+ profile_name_or_href +:+ "/profile.json")).
Proof.
  intros Hheading href.
  assert (has_substring href "://" = true) as Hhref.
  { unfold href, get_source.
    destruct (has_substring profile_name_or_href "://") eqn:Hin; simpl; [done|].
    by apply has_substring_app_l. }
  split; [done|]. split.
  - unfold get_source at 1. by rewrite Hhref.
  - unfold href, get_source.
    split; intros Hin; rewrite Hin; simpl; done.
Qed.

End profile_source.

Lemma get_source_href_is_fixed_witness :
  let href := (cd_generator.get_source (H:=demo_paths) "/vendor" "nist_high").2 in
  cd_generator.has_substring href "://" = true
  ∧ cd_generator.get_source (H:=demo_paths) "/vendor" href = (Href href, href)
  ∧ (cd_generator.has_substring "nist_high" "://" = true → href = "nist_high")
  ∧ (cd_generator.has_substring "nist_high" "://" = false →
     href = TRESTLE_HREF_HEADING (TrestlePaths:=demo_paths) +:+ "profiles/"
            +:+ "nist_high" +:+ "/profile.json"
     ∧ (cd_generator.get_source (H:=demo_paths) "/vendor" "nist_high").1
       = UnderRoot "/vendor" ("profiles/" +:+ "nist_high" +:+ "/profile.json")).
Proof.
  apply (get_source_href_is_fixed (H:=demo_paths) "/vendor" "nist_high").
  vm_compute. reflexivity.
Defined.

(* ===================================================================== *)
(** * Characters of cleaned texts                                         *)
(* ===================================================================== *)

Section cleaned_text.
Import Py_str.













End cleaned_text.

(* ===================================================================== *)
(** * More on the parameter repository                                    *)
(* ===================================================================== *)

Section repository_invariants.
Import Py_str params_extractor.
Context `{Ssg}.

Lemma endswith_app (a b p : string) :
  endswith b p = true → endswith (a +:+ b) p = true.
Proof.
  intros Hb. induction a as [|c a IH]; [done|].
  rewrite str_app_cons. simpl. by case_decide.
Qed.

Lemma endswith_join (root file p : string) :
  endswith file p = true → endswith (os_path.join root file) p = true.
Proof.
  intros Hf. unfold os_path.join.
  destruct (startswith file "/"); [done|].
  case_decide; [done|].
  destruct (endswith root "/").
  - by apply endswith_app.
  - by apply endswith_app, endswith_app.
Qed.

(** X8. [find_var_files] yields the joined path of every file of the walk
    whose name ends in [.var], of no other file, and every path it yields
    ends in [.var] itself. *)
Theorem find_var_files_only_var (directory path : string) :
  path ∈ find_var_files directory ↔
    endswith path VAR_FILE_EXTENSION = true
    ∧ ∃ root files file,
        (root, files) ∈ os_walk directory ∧ file ∈ files
        ∧ endswith file VAR_FILE_EXTENSION = true
        ∧ path = os_path.join root file.
Proof.
  unfold find_var_files. rewrite list_elem_of_bind. split.
  - intros ([root files] & Hpath & Hwalk).
    apply list_elem_of_bind in Hpath as (file & Hpath & Hfile).
    destruct (endswith file VAR_FILE_EXTENSION) eqn:Hext;
      [|by apply elem_of_nil in Hpath].
    apply list_elem_of_singleton in Hpath as ->.
    split; [by apply endswith_join|]. by exists root, files, file.
  - intros (_ & root & files & file & Hwalk & Hfile & Hext & ->).
    exists (root, files). split; [|done].
    apply list_elem_of_bind. exists file. split; [|done].
    rewrite Hext. by left.
Qed.







End repository_invariants.

Section repository_invariants_examples.
Import Py_str params_extractor.




End repository_invariants_examples.

(* ===================================================================== *)
(** * More on rule ids, overrides and rule resolution                     *)
(* ===================================================================== *)

Section overrides.
Import Py_str rules_transformer.

Lemma foldl_insert_last (l : list string) (m : gmap string string)
  (key : string) :
  foldl (λ m e, <[nth 0 (split e "=") "" := nth 1 (split e "=") ""]> m) m l
    !! key =
  match last (filter (λ e, nth 0 (split e "=") "" = key) l) with
  | Some e => Some (nth 1 (split e "=") "")
  | None => m !! key
  end.
Proof.
  revert m. induction l as [|e l IH]; intros m; [done|].
  cbn [foldl]. rewrite IH, filter_cons. case_decide as He.
  - rewrite last_cons. destruct (last (filter _ l)); [done|].
    by rewrite <- He, lookup_insert_eq.
  - destruct (last (filter _ l)); [done|]. by rewrite lookup_insert_ne.
Qed.

Lemma filter_filter_and {A} (P Q : A → Prop) `{∀ x, Decision (P x)}
  `{∀ x, Decision (Q x)} (l : list A) :
  filter Q (filter P l) = filter (λ x, P x ∧ Q x) l.
Proof.
  induction l as [|x l IH]; [done|].
  rewrite !filter_cons. repeat case_decide; try naive_solver.
  - rewrite filter_cons_True by naive_solver. by rewrite IH.
  - rewrite filter_cons_False by naive_solver. done.
Qed.

Lemma process_rule_ids_overrides (rule_ids : list string) (key : string) :
  (_process_rule_ids rule_ids).2 !! key = last_override rule_ids key.
Proof.
  unfold _process_rule_ids, last_override.
  rewrite fold_process_rule_id. cbn [snd].
  rewrite foldl_insert_last, lookup_empty, filter_filter_and.
  by destruct (last _).
Qed.

(** X12. The override kept for a key is the value of the last entry of
    the list that is an override of that key: a later [key=value] replaces
    an earlier one, wherever the rule ids stand between them, and a key no
    entry overrides has none. *)
Theorem last_override_wins (rule_ids : list string) (key : string) :
  (_process_rule_ids rule_ids).2 !! key =
    (λ e, nth 1 (split e "=") "") <$>
    last (filter (λ e, length (split e "=") = 2 ∧ nth 0 (split e "=") "" = key)
                 rule_ids).
Proof. apply process_rule_ids_overrides. Qed.

Lemma split_no_separator (s : string) (sep : ascii) :
  count_char sep s = 0 → split s sep = [s].
Proof.
  induction s as [|c s IH]; [done|]. simpl.
  case_decide; [done|]. intros Hs. by rewrite IH.
Qed.

Lemma split_at_separator (k rest : string) (sep : ascii) :
  count_char sep k = 0 →
  split (k +:+ String sep rest) sep = k :: split rest sep.
Proof.
  induction k as [|c k IH]; intros Hk.
  - simpl. by rewrite decide_True.
  - rewrite str_app_cons. simpl in *. case_decide; [done|].
    by rewrite IH.
Qed.

(** X13. An entry [key=value] whose key and value have no ['='] is read
    back as that key and that value: placed last in the list, it is the
    override of the key and adds no rule id. *)
Theorem override_round_trip (rule_ids : list string) (key value : string) :
  count_char "=" key = 0 →
  count_char "=" value = 0 →
  let entry := key +:+ "=" +:+ value in
  split entry "=" = [key; value]
  ∧ (_process_rule_ids (rule_ids ++ [entry])).2 !! key = Some value
  ∧ (_process_rule_ids (rule_ids ++ [entry])).1 = (_process_rule_ids rule_ids).1.
Proof.
  intros Hk Hv entry.
  assert (split entry "=" = [key; value]) as Hsplit.
  { unfold entry. change (key +:+ "=" +:+ value)
      with (key +:+ String "="%char value).
    by rewrite split_at_separator, split_no_separator. }
  split; [done|]. split.
  - rewrite process_rule_ids_overrides. unfold last_override.
    rewrite filter_app, filter_cons_True by (by rewrite Hsplit).
    rewrite filter_nil, last_snoc. simpl. by rewrite Hsplit.
  - rewrite !process_rule_ids_plain, filter_app.
    rewrite filter_cons_False by (rewrite Hsplit; simpl; lia).
    by rewrite filter_nil, app_nil_r.
Qed.

Lemma override_round_trip_witness :
  let entry := "xccdf_var" +:+ "=" +:+ "custom" in
  split entry "=" = ["xccdf_var"; "custom"]
  ∧ (_process_rule_ids (["rule_a"; "xccdf_var=first"] ++ [entry])).2
      !! "xccdf_var" = Some "custom"
  ∧ (_process_rule_ids (["rule_a"; "xccdf_var=first"] ++ [entry])).1
    = (_process_rule_ids ["rule_a"; "xccdf_var=first"]).1.
Proof.
  apply (override_round_trip ["rule_a"; "xccdf_var=first"] "xccdf_var" "custom").
  - vm_compute. reflexivity.
  - vm_compute. reflexivity.
Defined.

End overrides.

Section resolution_order.
Import Py_str rules_transformer.

(** X14. [_new_rule_obj] prefers the rules json: a non-empty ["dir"]
    there is the rule's directory whatever the product scan has.  An
    absent or empty one falls through to the product scan, and when that
    has no non-empty directory either the call raises a [ValueError] that
    names the rule.  The object it answers has the requested id, an empty
    description, no parameter and a directory that is never empty, and the
    call changes nothing. *)
Theorem new_rule_obj_resolution_order (self : RulesTransformer)
  (rule_id : string) (w : World) :
  let from_json := dir <$> rule_json self !! rule_id in
  let from_scan := rules_dirs_for_product self !! rule_id in
  world (_new_rule_obj self rule_id w) = w
  ∧ match result (_new_rule_obj self rule_id w) with
    | inr rule_obj =>
        rule_obj = RuleInfo.mk rule_id "" (RuleInfo.rule_dir rule_obj) []
        ∧ RuleInfo.rule_dir rule_obj ≠ ""
        ∧ (match from_json with
           | Some d => d ≠ "" → RuleInfo.rule_dir rule_obj = d
           | None => True
           end)
        ∧ (from_json = Some (RuleInfo.rule_dir rule_obj)
           ∨ (from_json = None ∨ from_json = Some "")
             ∧ from_scan = Some (RuleInfo.rule_dir rule_obj))
    | inl e =>
        (from_json = None ∨ from_json = Some "")
        ∧ (from_scan = None ∨ from_scan = Some "")
        ∧ (∃ msg, e = ValueError msg ∧ contains msg rule_id)
    end.
Proof.
  intros from_json from_scan. unfold from_json, from_scan.
  unfold _new_rule_obj, _from_rules_json, _from_product_dir, truthy_opt, truthy.
  destruct (rule_json self !! rule_id) as [entry|] eqn:Hjson; simpl.
  - destruct (decide (dir entry = "")) as [Hd|Hd].
    + rewrite bool_decide_false by (intros Hne; by apply Hne). simpl.
      case_decide as Hdom.
      * apply not_elem_of_dom in Hdom. rewrite Hdom. split; [done|].
        split_and!; [right; by rewrite Hd|by left|].
        eexists. split; [done|]. by exists "Could not find rule ",
          " in rules json or product directory.".
      * destruct (rules_dirs_for_product self !! rule_id) as [d|] eqn:Hscan.
        -- destruct (decide (d = "")) as [->|Hne].
           ++ simpl. split; [done|].
              split_and!; [right; by rewrite Hd|by right|].
              eexists. split; [done|]. by exists "Could not find rule ",
                " in rules json or product directory.".
           ++ rewrite bool_decide_true by done. simpl. split; [done|].
              split_and!; [done..| |].
              ** intros Hne'. by rewrite Hd in Hne'.
              ** right. split; [right; by rewrite Hd|done].
        -- split; [done|]. split_and!; [right; by rewrite Hd|by left|].
           eexists. split; [done|]. by exists "Could not find rule ",
             " in rules json or product directory.".
    + rewrite bool_decide_true by done. simpl.
      rewrite bool_decide_true by done. simpl. split; [done|].
      split_and!; [done..|]. by left.
  - case_decide as Hdom.
    + apply not_elem_of_dom in Hdom. rewrite Hdom. split; [done|].
      split_and!; [by left|by left|].
      eexists. split; [done|]. by exists "Could not find rule ",
        " in rules json or product directory.".
    + destruct (rules_dirs_for_product self !! rule_id) as [d|] eqn:Hscan.
      * destruct (decide (d = "")) as [->|Hne].
        -- simpl. split; [done|]. split_and!; [by left|by right|].
           eexists. split; [done|]. by exists "Could not find rule ",
             " in rules json or product directory.".
        -- rewrite bool_decide_true by done. simpl. split; [done|].
           split_and!; [done..|]. right. split; [by left|done].
      * split; [done|]. split_and!; [by left|by left|].
        eexists. split; [done|]. by exists "Could not find rule ",
          " in rules json or product directory.".
Qed.

End resolution_order.

(* ===================================================================== *)
(** * More on loading rules                                               *)
(* ===================================================================== *)

Section load_more.
Import Py_str rules_transformer params_extractor.
Context `{Ssg}.


(** X16. A list that holds nothing but overrides, the empty list
    included, loads no rule: [load] answers the empty list and leaves the
    repository and the log as they are; an override alone writes
    nothing. *)
Theorem only_overrides_load_nothing (self : RulesTransformer)
  (rule_ids : list string) (w : World) :
  Forall (λ e, count_char "=" e = 1) rule_ids →
  load self rule_ids w = (inr [], w).
Proof.
  intros Hall. rewrite load_cases, process_rule_ids_plain.
  rewrite filter_none; [done|].
  eapply Forall_impl; [exact Hall|]. intros e He. simpl in He.
  rewrite split_length, He. by intros Hne.
Qed.

Lemma set_default_value_same (p : ParamInfo.t) :
  ParamInfo.set_default_value p (ParamInfo.default_value p) = p.
Proof. by destruct p. Qed.

Lemma overridden_visible (params_values : gmap string string) (param : string)
  (d : gmap string ParamInfo.t) (p : ParamInfo.t) :
  d !! param = Some p →
  (∀ value, params_values !! param = Some value →
            ParamInfo.default_value p = value) →
  overridden params_values param d = d.
Proof.
  intros Hp Hv. unfold overridden.
  destruct (params_values !! param) as [v|] eqn:Hpv; [|done].
  apply map_eq. intros k. destruct (decide (param = k)) as [<-|Hne].
  - rewrite lookup_alter_eq, Hp. simpl. f_equal.
    rewrite <- (Hv v eq_refl). apply set_default_value_same.
  - by rewrite lookup_alter_ne.
Qed.

(** An attempt whose override is already in place leaves the dict as it
    is. *)
Lemma attempt_store_fixed (self : RulesTransformer)
  (params_values : gmap string string) (rule_id : string) (w : World)
  (rule_obj : RuleInfo.t string) :
  result (attempt self params_values rule_id w) = inr rule_obj →
  overrides_visible params_values (_params_by_id w) rule_obj →
  _params_by_id (world (attempt self params_values rule_id w)) = _params_by_id w.
Proof.
  rewrite attempt_cases.
  destruct (find_rule_dir self rule_id) as [d|]; [|done].
  destruct (Rule_from_yaml _ _ _) as [e|y]; [done|].
  rewrite get_params_ids_cases.
  destruct (referenced y) as [param|].
  - destruct (_params_by_id w !! param) as [p|] eqn:Hp; [|done].
    intros [= <-] Hvis. simpl in *.
    apply Forall_singleton in Hvis as (p' & Hp' & Hv).
    eapply overridden_visible; [exact Hp'|done].
  - intros _ _. by destruct (is_templated y).
Qed.

Lemma load_loop_again (self : RulesTransformer)
  (params_values : gmap string string) (plain : list string)
  (rule_objs : list (RuleInfo.t string)) (rule_errors : list string)
  (w : World) :
  Forall (λ rule_id,
            is_Some (loaded self params_values w rule_id)
            ∨ is_Some (load_error self params_values w rule_id)) plain →
  Forall (overrides_visible params_values (_params_by_id w))
         (omap (loaded self params_values w) plain) →
  let r := for_fold plain (rule_objs, rule_errors)
             (load_step self params_values) w in
  result r = inr (rule_objs ++ omap (loaded self params_values w) plain,
                  rule_errors ++ omap (load_error self params_values w) plain)
  ∧ _params_by_id (world r) = _params_by_id w.
Proof.
  revert rule_objs rule_errors w.
  induction plain as [|rule_id plain IH];
    intros rule_objs rule_errors w Hsettled Hvisible.
  - simpl. by rewrite !app_nil_r.
  - apply Forall_cons in Hsettled as [Hthis Hsettled].
    cbn [for_fold]. unfold mbind, Py_bind. rewrite load_step_cases.
    destruct (result (attempt self params_values rule_id w))
      as [e|rule_obj] eqn:Hres.
    + pose proof (loaded_inl _ _ _ _ _ Hres) as Hl.
      rewrite (omap_cons_None _ _ _ Hl) in Hvisible |- *.
      destruct Hthis as [[? Hthis]|[err He]]; [congruence|].
      rewrite (omap_cons_Some _ _ _ _ He).
      assert (match e with
              | RuntimeError msg =>
                  (@inl exn (list (RuleInfo.t string) * list string)
                     (RuntimeError msg), w)
              | _ => (inr (rule_objs,
                           rule_errors ++
                           option_list (load_error self params_values w rule_id)),
                      w)
              end = (inr (rule_objs, rule_errors ++ [err]), w)) as ->.
      { rewrite He. unfold load_error in He. rewrite Hres in He.
        by destruct e. }
      destruct (IH rule_objs (rule_errors ++ [err]) w Hsettled Hvisible)
        as [Hr Hs].
      split; [|done]. rewrite Hr. by rewrite <- (assoc_L (++)).
    + pose proof (loaded_inr _ _ _ _ _ Hres) as [Hl He].
      rewrite (omap_cons_Some _ _ _ _ Hl) in Hvisible |- *.
      rewrite (omap_cons_None _ _ _ He).
      apply Forall_cons in Hvisible as [Hvis Hvisible].
      pose proof (attempt_store_fixed _ _ _ _ _ Hres Hvis) as Hstore.
      set (w1 := world (attempt self params_values rule_id w)) in *.
      assert (only_overrides params_values (_params_by_id w) (_params_by_id w1))
        as Hov by (rewrite Hstore; apply only_overrides_refl).
      destruct (outcome_stable self params_values w w1 Hov)
        as (Hsame & Hobjs & Herrs).
      destruct (IH (rule_objs ++ [rule_obj]) rule_errors w1) as [Hr Hs].
      * eapply Forall_impl; [exact Hsettled|]. intros rid. simpl.
        unfold loaded, load_error. by rewrite Hsame.
      * rewrite Hobjs, Hstore. done.
      * split; [|by rewrite Hs].
        rewrite Hr, Hobjs, Herrs. by rewrite <- (assoc_L (++)).
Qed.

(** X17. Loading the same list a second time, right after the first,
    answers what the first call answered and leaves the repository as the
    first call left it: the overrides are already in place.  This is for
    a rule loader that fails only with the exception classes [load]
    catches. *)
Theorem load_again_changes_nothing (self : RulesTransformer)
  (rule_ids : list string) (w : World) :
  (∀ rule_file e,
     Rule_from_yaml rule_file (env_yaml self) (product self) = inl e →
     ∃ msg, e = ValueError msg ∨ e = FileNotFoundError msg) →
  let first := load self rule_ids w in
  let second := load self rule_ids (world first) in
  result second = result first
  ∧ _params_by_id (world second) = _params_by_id (world first).
Proof.
  intros Hloader first second. unfold second, first.
  rewrite (load_world self rule_ids w).
  rewrite (load_world self rule_ids (world _)).
  rewrite !load_cases.
  set (pv := (_process_rule_ids rule_ids).2).
  set (plain := (_process_rule_ids rule_ids).1).
  destruct (load_loop self pv plain [] [] w) as [Hov Hloop].
  set (w1 := world (for_fold plain ([], []) (load_step self pv) w)) in *.
  assert (∃ objs errs,
            for_fold plain ([], []) (load_step self pv) w
            = (inr (objs, errs), w1)
            ∧ objs = omap (loaded self pv w) plain
            ∧ errs = omap (load_error self pv w) plain
            ∧ Forall (λ rid, is_Some (loaded self pv w rid)
                             ∨ is_Some (load_error self pv w rid)) plain
            ∧ Forall (overrides_visible pv (_params_by_id w1))
                     (omap (loaded self pv w) plain))
    as (objs & errs & Hfirst & -> & -> & Hsettled & Hvisible).
  { unfold w1, result, world in *.
    destruct (for_fold plain ([], []) (load_step self pv) w)
      as [[e|[objs errs]] w']; cbn [fst snd] in *.
    - exfalso. destruct Hloop as (rid & _ & Hres & Hnone).
      unfold load_error in Hnone. unfold result in Hnone.
      rewrite Hres in Hnone.
      destruct (attempt_error_class _ _ _ _ _ Hres)
        as [[msg ->]|[rule_file Hfile]]; [done|].
      by destruct (Hloader _ _ Hfile) as [msg [-> | ->]].
    - destruct Hloop as (-> & -> & ? & ?). eexists _, _. done. }
  destruct (outcome_stable self pv w w1 Hov) as (Hsame & Hobjs & Herrs).
  destruct (load_loop_again self pv plain [] [] w1) as [Hr Hs].
  { eapply Forall_impl; [exact Hsettled|]. intros rid. simpl.
    unfold loaded, load_error. by rewrite Hsame. }
  { by rewrite Hobjs. }
  rewrite Hobjs, Herrs in Hr. simpl in Hr.
  rewrite Hfirst. unfold result, world in *.
  destruct (for_fold plain ([], []) (load_step self pv) w1)
    as [r2 w2]; cbn [fst snd] in *.
  subst r2. split; [|done].
  by destruct (omap (load_error self pv w) plain).
Qed.

End load_more.

Section load_more_examples.
Import Py_str rules_transformer params_extractor.

Lemma only_overrides_load_nothing_witness :
  load (H:=demo_ssg) demo_transformer ["xccdf_var=custom"; "P1=bar"] demo_world
  = (inr [], demo_world).
Proof.
  apply (only_overrides_load_nothing (H:=demo_ssg) demo_transformer
           ["xccdf_var=custom"; "P1=bar"] demo_world).
  repeat constructor.
Defined.

Lemma load_again_changes_nothing_witness :
  let first := load (H:=demo_ssg) demo_transformer
                 ["rule_a"; "xccdf_var=custom"; "rule_gone"] demo_world in
  let second := load (H:=demo_ssg) demo_transformer
                  ["rule_a"; "xccdf_var=custom"; "rule_gone"] (world first) in
  result second = result first
  ∧ _params_by_id (world second) = _params_by_id (world first).
Proof.
  apply (load_again_changes_nothing (H:=demo_ssg) demo_transformer
           ["rule_a"; "xccdf_var=custom"; "rule_gone"] demo_world).
  intros rule_file e. simpl. unfold demo_rule_yaml.
  repeat case_decide; intros [= <-]; eauto.
Defined.

End load_more_examples.

(* ===================================================================== *)
(** * The constructed rules transformer                                   *)
(* ===================================================================== *)

Section transformer_construction.
Import Py_str rules_transformer.
Context `{Ssg} `{SsgRules}.

Lemma fold_index_rule_dir (dirs : list string) (m : gmap string string)
  (rule_id : string) :
  fold_left rules_transformer_init.index_rule_dir dirs m !! rule_id =
    match last (filter (λ d, get_rule_dir_id d = rule_id) dirs) with
    | Some d => Some d
    | None => m !! rule_id
    end.
Proof.
  revert m. induction dirs as [|d dirs IH]; intros m; [done|].
  cbn [fold_left]. rewrite IH, filter_cons.
  unfold rules_transformer_init.index_rule_dir. case_decide as Hd.
  - rewrite last_cons. destruct (last (filter _ dirs)); [done|].
    by rewrite <- Hd, lookup_insert_eq.
  - destruct (last (filter _ dirs)); [done|]. by rewrite lookup_insert_ne.
Qed.

(** X18. When the constructor of [RulesTransformer] succeeds it has
    changed nothing, keeps the rules json as read, and maps every rule id
    of the scan of the benchmark root to the last directory scanned with
    that id.  If no scanned directory is the empty path, every scanned
    rule can then be resolved: [_new_rule_obj] on its id answers a rule
    object. *)
Theorem constructed_transformer_resolves_scan (root : string)
  (env_yaml : gmap string string) (rule_dirs_json_path : string)
  (w : World) (self : RulesTransformer) :
  result (rules_transformer_init.__init__ root env_yaml rule_dirs_json_path w)
    = inr self →
  let scan := find_rule_dirs_in_paths [get_benchmark_root root (product self)] in
  world (rules_transformer_init.__init__ root env_yaml rule_dirs_json_path w) = w
  ∧ json_load rule_dirs_json_path = inr (rule_json self)
  ∧ env_yaml !! "product" = Some (product self)
  ∧ (∀ rule_id,
       rules_dirs_for_product self !! rule_id
       = last (filter (λ d, get_rule_dir_id d = rule_id) scan))
  ∧ (Forall (λ d, d ≠ "") scan →
     ∀ d w', d ∈ scan →
       ∃ rule_obj,
         _new_rule_obj self (get_rule_dir_id d) w' = (inr rule_obj, w')
         ∧ RuleInfo.id rule_obj = get_rule_dir_id d).
Proof.
  unfold rules_transformer_init.__init__, required_key. py_unfold.
  destruct (json_load rule_dirs_json_path) as [e|json]; [done|].
  destruct (env_yaml !! "product") as [prod|] eqn:Hprod; [|done].
  simpl. intros [= <-]. simpl.
  assert (∀ rule_id,
            fold_left rules_transformer_init.index_rule_dir
              (find_rule_dirs_in_paths [get_benchmark_root root prod]) ∅
              !! rule_id
            = last (filter (λ d, get_rule_dir_id d = rule_id)
                      (find_rule_dirs_in_paths [get_benchmark_root root prod])))
    as Hscan.
  { intros rule_id. rewrite fold_index_rule_dir, lookup_empty.
    by destruct (last _). }
  split_and!; [done..|].
  intros Hne d w' Hd.
  set (self := mkRulesTransformer _ _ _ _ _).
  rewrite new_rule_obj_cases.
  assert (∃ dir, find_rule_dir self (get_rule_dir_id d) = Some dir)
    as [dir ->]; [|eexists; done].
  unfold find_rule_dir.
  destruct (truthy_opt (_from_rules_json self (get_rule_dir_id d))) eqn:Hjson.
  { rewrite Hjson. destruct (_from_rules_json self (get_rule_dir_id d)); eauto.
    done. }
  unfold _from_product_dir. simpl.
  destruct (last (filter (λ d0, get_rule_dir_id d0 = get_rule_dir_id d)
                    (find_rule_dirs_in_paths [get_benchmark_root root prod])))
    as [d'|] eqn:Hlast.
  - assert (d' ≠ "") as Hd'.
    { apply last_Some_elem_of, list_elem_of_filter in Hlast as [_ Hin].
      rewrite Forall_forall in Hne. by apply Hne. }
    rewrite decide_False; last first.
    { intros Hdom. apply Hdom, elem_of_dom. rewrite Hscan, Hlast. eauto. }
    rewrite Hscan, Hlast. simpl. unfold truthy.
    rewrite bool_decide_true by done. eauto.
  - exfalso. apply last_None in Hlast.
    assert (d ∈ filter (λ d0, get_rule_dir_id d0 = get_rule_dir_id d)
              (find_rule_dirs_in_paths [get_benchmark_root root prod]))
      as Hin by (by apply list_elem_of_filter).
    rewrite Hlast in Hin. by apply elem_of_nil in Hin.
Qed.

End transformer_construction.

Lemma constructed_transformer_resolves_scan_witness :
  let self := rules_transformer.mkRulesTransformer
                {[ "rule_a" := mkRuleDirEntry "/rules/rule_a" "guide" ]}
                "/ssg" demo_env_yaml "demo"
                (<["rule_c" := "/rules/rule_c"]> {[ "rule_b" := "/rules/rule_b" ]}) in
  let built := rules_transformer_init.__init__ (H:=demo_ssg) (H0:=demo_ssg_rules)
                 "/ssg" demo_env_yaml "/ssg/build/rule_dirs.json" (mkWorld ∅ []) in
  let scan := find_rule_dirs_in_paths (SsgRules:=demo_ssg_rules)
                [get_benchmark_root (H:=demo_ssg) "/ssg"
                   (rules_transformer.product self)] in
  world built = mkWorld ∅ []
  ∧ json_load (SsgRules:=demo_ssg_rules) "/ssg/build/rule_dirs.json"
    = inr (rules_transformer.rule_json self)
  ∧ demo_env_yaml !! "product" = Some (rules_transformer.product self)
  ∧ (∀ rule_id,
       rules_transformer.rules_dirs_for_product self !! rule_id
       = last (filter (λ d, get_rule_dir_id (SsgRules:=demo_ssg_rules) d = rule_id)
                 scan))
  ∧ (Forall (λ d, d ≠ "") scan →
     ∀ d w', d ∈ scan →
       ∃ rule_obj,
         rules_transformer._new_rule_obj self
           (get_rule_dir_id (SsgRules:=demo_ssg_rules) d) w' = (inr rule_obj, w')
         ∧ RuleInfo.id rule_obj = get_rule_dir_id (SsgRules:=demo_ssg_rules) d).
Proof.
  apply (constructed_transformer_resolves_scan (H:=demo_ssg) (H0:=demo_ssg_rules)
           "/ssg" demo_env_yaml "/ssg/build/rule_dirs.json" (mkWorld ∅ [])).
  vm_compute. reflexivity.
Defined.

(* ===================================================================== *)
(** * More on the properties of rules                                     *)
(* ===================================================================== *)

Section transform_more.
Import rules_transformer.
Context `{Trestle} `{PyRepr}.

Lemma transform_blocks (rule_objs : list (RuleInfo.t ParamInfo.t)) :
  transform rule_objs =
    concat (imap (λ i r, spec_rule_block
                           (next_rule_set_id i (length rule_objs)) r)
                 rule_objs).
Proof.
  unfold transform, enumerate. by rewrite fold_transform_step.
Qed.

Lemma rule_block_length (ns : string) (r : RuleInfo.t ParamInfo.t) :
  length (spec_rule_block ns r) = 2 + 4 * length (RuleInfo.parameters r).
Proof.
  unfold spec_rule_block. cbn [length].
  assert (length (RuleInfo.parameters r ≫= spec_param_quadruple ns)
          = 4 * length (RuleInfo.parameters r)) as ->; [|lia].
  induction (RuleInfo.parameters r) as [|p ps IH]; [done|].
  rewrite bind_cons, length_app, IH. simpl. lia.
Qed.

Lemma blocks_length (g : nat → string) (rule_objs : list (RuleInfo.t ParamInfo.t)) :
  length (concat (imap (λ i r, spec_rule_block (g i) r) rule_objs)) =
    sum_list ((λ r, 2 + 4 * length (RuleInfo.parameters r)) <$> rule_objs).
Proof.
  revert g. induction rule_objs as [|r rs IH]; intros g; [done|].
  rewrite imap_cons. cbn [concat]. rewrite length_app, rule_block_length.
  rewrite fmap_cons. cbn [sum_list sum_list_with]. f_equal.
  apply (IH (λ i, g (S i))).
Qed.

(** X19. [transform] emits two properties per rule and four per attached
    parameter, neither more nor fewer; for no rule it emits nothing. *)
Theorem transform_length (rule_objs : list (RuleInfo.t ParamInfo.t)) :
  length (transform rule_objs) =
    sum_list ((λ r, 2 + 4 * length (RuleInfo.parameters r)) <$> rule_objs).
Proof.
  rewrite transform_blocks.
  apply (blocks_length (λ i, next_rule_set_id i (length rule_objs))).
Qed.

Lemma rule_block_rule_ids (ns : string) (r : RuleInfo.t ParamInfo.t) :
  RULE_ID ≠ RULE_DESCRIPTION →
  RULE_ID ≠ PARAMETER_ID →
  RULE_ID ≠ PARAMETER_DESCRIPTION →
  RULE_ID ≠ PARAMETER_VALUE_DEFAULT →
  RULE_ID ≠ PARAMETER_VALUE_ALTERNATIVES →
  filter (λ p, prop_name p = RULE_ID) (spec_rule_block ns r)
    = [mkProperty RULE_ID (RuleInfo.id r) ns].
Proof.
  intros H1 H2 H3 H4 H5. unfold spec_rule_block.
  rewrite filter_cons_True by done.
  rewrite filter_cons_False by (simpl; congruence). f_equal.
  induction (RuleInfo.parameters r) as [|p ps IH]; [done|].
  rewrite bind_cons, filter_app, IH, app_nil_r.
  unfold spec_param_quadruple.
  by rewrite !filter_cons_False by (simpl; congruence).
Qed.

Lemma blocks_rule_ids (g : nat → string)
  (rule_objs : list (RuleInfo.t ParamInfo.t)) :
  RULE_ID ≠ RULE_DESCRIPTION →
  RULE_ID ≠ PARAMETER_ID →
  RULE_ID ≠ PARAMETER_DESCRIPTION →
  RULE_ID ≠ PARAMETER_VALUE_DEFAULT →
  RULE_ID ≠ PARAMETER_VALUE_ALTERNATIVES →
  filter (λ p, prop_name p = RULE_ID)
    (concat (imap (λ i r, spec_rule_block (g i) r) rule_objs))
  = imap (λ i r, mkProperty RULE_ID (RuleInfo.id r) (g i)) rule_objs.
Proof.
  intros H1 H2 H3 H4 H5.
  revert g. induction rule_objs as [|r rs IH]; intros g; [done|].
  rewrite !imap_cons. cbn [concat].
  rewrite filter_app, rule_block_rule_ids by done.
  simpl. f_equal. apply (IH (λ i, g (S i))).
Qed.

(** X20. When the name of the rule-id property differs from the five
    other property names, the rule-id properties of the output of
    [transform], read in order, give back the ids of the rules in order,
    each under the rule-set id of its rule. *)
Theorem transform_rule_ids_round_trip
  (rule_objs : list (RuleInfo.t ParamInfo.t)) :
  RULE_ID ≠ RULE_DESCRIPTION →
  RULE_ID ≠ PARAMETER_ID →
  RULE_ID ≠ PARAMETER_DESCRIPTION →
  RULE_ID ≠ PARAMETER_VALUE_DEFAULT →
  RULE_ID ≠ PARAMETER_VALUE_ALTERNATIVES →
  filter (λ p, prop_name p = RULE_ID) (transform rule_objs)
    = imap (λ i r, mkProperty RULE_ID (RuleInfo.id r)
                     (next_rule_set_id i (length rule_objs)))
           rule_objs.
Proof.
  intros H1 H2 H3 H4 H5. rewrite transform_blocks.
  apply (blocks_rule_ids (λ i, next_rule_set_id i (length rule_objs)));
    done.
Qed.

End transform_more.

Lemma transform_rule_ids_round_trip_witness :
  let rule_objs :=
    [ RuleInfo.mk "rule_a" "Set the tunable." "/rules/rule_a"
        [ParamInfo.mk "xccdf_var" "a tunable" "custom" [("default", "standard")]];
      RuleInfo.mk "rule_b" "Plain rule" "/rules/rule_b" [] ] in
  filter (λ p, prop_name p = RULE_ID (Trestle:=demo_trestle))
    (rules_transformer.transform (H:=demo_trestle) (H0:=demo_repr) rule_objs)
  = imap (λ i r, mkProperty (RULE_ID (Trestle:=demo_trestle)) (RuleInfo.id r)
                   (next_rule_set_id (Trestle:=demo_trestle) i (length rule_objs)))
         rule_objs.
Proof.
  apply (transform_rule_ids_round_trip (H:=demo_trestle) (H0:=demo_repr)
           [ RuleInfo.mk "rule_a" "Set the tunable." "/rules/rule_a"
               [ParamInfo.mk "xccdf_var" "a tunable" "custom"
                  [("default", "standard")]];
             RuleInfo.mk "rule_b" "Plain rule" "/rules/rule_b" [] ]);
    vm_compute; discriminate.
Defined.

(* ===================================================================== *)
(** * What a batch writes, and where a parameter id comes from            *)
(* ===================================================================== *)

Section load_writes.
Import Py_str rules_transformer params_extractor.
Context `{Ssg}.

Lemma attempt_store_exact (self : RulesTransformer)
  (params_values : gmap string string) (rule_id : string) (w : World)
  (rule_obj : RuleInfo.t string) :
  result (attempt self params_values rule_id w) = inr rule_obj →
  _params_by_id (world (attempt self params_values rule_id w))
  = foldl (λ d param, overridden params_values param d) (_params_by_id w)
          (RuleInfo.parameters rule_obj).
Proof.
  rewrite attempt_cases.
  destruct (find_rule_dir self rule_id) as [d|]; [|done].
  destruct (Rule_from_yaml _ _ _) as [e|y]; [done|].
  rewrite get_params_ids_cases.
  destruct (referenced y) as [param|].
  - destruct (_params_by_id w !! param) as [p|] eqn:Hp; [|done].
    by intros [= <-].
  - intros [= <-]. by destruct (is_templated y).
Qed.

Lemma load_loop_store (self : RulesTransformer)
  (params_values : gmap string string) (plain : list string)
  (rule_objs : list (RuleInfo.t string)) (rule_errors : list string)
  (w : World) :
  Forall (λ rule_id,
            is_Some (loaded self params_values w rule_id)
            ∨ is_Some (load_error self params_values w rule_id)) plain →
  _params_by_id
    (world (for_fold plain (rule_objs, rule_errors)
              (load_step self params_values) w))
  = foldl (λ d param, overridden params_values param d) (_params_by_id w)
          (omap (loaded self params_values w) plain ≫= RuleInfo.parameters).
Proof.
  revert rule_objs rule_errors w.
  induction plain as [|rule_id plain IH];
    intros rule_objs rule_errors w Hsettled; [done|].
  apply Forall_cons in Hsettled as [Hthis Hsettled].
  cbn [for_fold]. unfold mbind, Py_bind. rewrite load_step_cases.
  pose proof (attempt_world self params_values rule_id w) as [Hframe _].
  destruct (result (attempt self params_values rule_id w))
    as [e|rule_obj] eqn:Hres.
  - pose proof (loaded_inl _ _ _ _ _ Hres) as Hl.
    rewrite (omap_cons_None _ _ _ Hl).
    destruct Hthis as [[? Hthis]|[err He]]; [congruence|].
    assert (match e with
            | RuntimeError msg =>
                (@inl exn (list (RuleInfo.t string) * list string)
                   (RuntimeError msg), w)
            | _ => (inr (rule_objs,
                         rule_errors ++
                         option_list (load_error self params_values w rule_id)),
                    w)
            end = (inr (rule_objs, rule_errors ++ [err]), w)) as ->.
    { rewrite He. unfold load_error in He. rewrite Hres in He.
      by destruct e. }
    by apply IH.
  - pose proof (loaded_inr _ _ _ _ _ Hres) as [Hl He].
    rewrite (omap_cons_Some _ _ _ _ Hl), bind_cons, foldl_app.
    rewrite <- (attempt_store_exact _ _ _ _ _ Hres).
    set (w1 := world (attempt self params_values rule_id w)) in *.
    destruct (outcome_stable self params_values w w1 Hframe)
      as (Hsame & Hobjs & Herrs).
    rewrite <- Hobjs. apply IH.
    eapply Forall_impl; [exact Hsettled|]. intros rid. simpl.
    unfold loaded, load_error. by rewrite Hsame.
Qed.

(** X21. What [load] leaves in the repository is the repository it found
    with, for each rule that loaded, in order, the override of its
    parameter written in, whether or not [load] then raises for the rules
    that failed: nothing is rolled back.  This is for a rule loader that
    fails only with the exception classes [load] catches. *)
Theorem load_writes_overrides_of_loaded_rules (self : RulesTransformer)
  (rule_ids : list string) (w : World) :
  (∀ rule_file e,
     Rule_from_yaml rule_file (env_yaml self) (product self) = inl e →
     ∃ msg, e = ValueError msg ∨ e = FileNotFoundError msg) →
  let plain := filter (λ e, length (split e "=") ≠ 2) rule_ids in
  let params_values := (_process_rule_ids rule_ids).2 in
  _params_by_id (world (load self rule_ids w))
  = foldl (λ d param,
             match params_values !! param with
             | Some value =>
                 alter (λ p, ParamInfo.set_default_value p value) param d
             | None => d
             end)
          (_params_by_id w)
          (omap (loaded self params_values w) plain ≫= RuleInfo.parameters).
Proof.
  intros Hloader plain params_values. unfold plain, params_values.
  rewrite load_world, <- process_rule_ids_plain.
  apply (load_loop_store self). apply Forall_forall. intros rid _.
  unfold loaded, load_error.
  destruct (result (attempt self (_process_rule_ids rule_ids).2 rid w))
    as [e|obj] eqn:Hres; [|left; eauto].
  right. destruct (attempt_error_class _ _ _ _ _ Hres)
    as [[msg ->]|[rule_file Hfile]]; [eauto|].
  destruct (Hloader _ _ Hfile) as [msg [-> | ->]]; eauto.
Qed.

End load_writes.

Section parameter_id_of_name.
Import Py_str params_extractor.

Lemma no_slash_existsb (s : string) :
  count_char "/" s = 0 →
  existsb (λ x, bool_decide (x = "/"%char)) (list_ascii_of_string s) = false.
Proof.
  induction s as [|c s IH]; [done|]. simpl.
  case_decide as Hc; [done|]. intros Hs.
  rewrite bool_decide_false by done. by apply IH.
Qed.

Lemma slash_existsb (a b : string) :
  existsb (λ x, bool_decide (x = "/"%char))
    (list_ascii_of_string (a +:+ "/" +:+ b)) = true.
Proof.
  induction a as [|c a IH]; [done|].
  rewrite str_app_cons. simpl. rewrite IH. apply orb_true_r.
Qed.

Lemma basename_no_slash (s : string) :
  count_char "/" s = 0 → os_path.basename s = s.
Proof.
  destruct s as [|c s]; [done|]. simpl.
  case_decide as Hc; [done|]. intros Hs.
  by rewrite no_slash_existsb.
Qed.

Lemma basename_after_slash (a b : string) :
  count_char "/" b = 0 → os_path.basename (a +:+ "/" +:+ b) = b.
Proof.
  intros Hb. induction a as [|c a IH].
  - change ("" +:+ "/" +:+ b) with (String "/"%char b). simpl.
    by rewrite no_slash_existsb.
  - rewrite str_app_cons. simpl. by rewrite slash_existsb.
Qed.

Lemma endswith_suffix (s p : string) :
  endswith s p = true → ∃ pre, s = pre +:+ p.
Proof.
  induction s as [|c s IH]; simpl.
  - case_decide as Hp; [|done]. intros _. exists "". by rewrite <- Hp.
  - case_decide as Hp.
    + intros _. exists "". by rewrite <- Hp.
    + intros [pre ->]%IH. by exists (String c pre).
Qed.

(** X22. The id a var file is stored under comes from its name alone:
    for a file name without a slash, as [os.walk] gives them, the base
    name of the path [find_var_files] yields is the file name, whatever
    the directory. *)
Theorem parameter_id_from_file_name (root file : string) :
  count_char "/" file = 0 →
  os_path.basename (os_path.join root file) = file
  ∧ replace (os_path.basename (os_path.join root file)) VAR_FILE_EXTENSION ""
    = replace file VAR_FILE_EXTENSION "".
Proof.
  intros Hfile.
  assert (os_path.basename (os_path.join root file) = file) as Hbase;
    [|by rewrite Hbase].
  unfold os_path.join.
  destruct (startswith file "/") eqn:Hstart;
    [by apply basename_no_slash|].
  case_decide; [by apply basename_no_slash|].
  destruct (endswith root "/") eqn:Hend.
  - apply endswith_suffix in Hend as [pre ->].
    rewrite str_app_assoc. by apply basename_after_slash.
  - by apply basename_after_slash.
Qed.

Lemma parameter_id_from_file_name_witness :
  os_path.basename (os_path.join "/bench/accounts" "var_tmout.var")
    = "var_tmout.var"
  ∧ replace (os_path.basename (os_path.join "/bench/accounts" "var_tmout.var"))
      VAR_FILE_EXTENSION ""
    = replace "var_tmout.var" VAR_FILE_EXTENSION "".
Proof.
  apply (parameter_id_from_file_name "/bench/accounts" "var_tmout.var").
  vm_compute. reflexivity.
Defined.

End parameter_id_of_name.

Lemma load_writes_overrides_of_loaded_rules_witness :
  let rule_ids := ["rule_a"; "xccdf_var=custom"; "rule_gone"] in
  let plain := filter (λ e, length (Py_str.split e "=") ≠ 2) rule_ids in
  let params_values := (rules_transformer._process_rule_ids rule_ids).2 in
  _params_by_id (world (rules_transformer.load (H:=demo_ssg) demo_transformer
                          rule_ids demo_world))
  = foldl (λ d param,
             match params_values !! param with
             | Some value =>
                 alter (λ p, ParamInfo.set_default_value p value) param d
             | None => d
             end)
          (_params_by_id demo_world)
          (omap (loaded (H:=demo_ssg) demo_transformer params_values demo_world)
                plain ≫= RuleInfo.parameters).
Proof.
  apply (load_writes_overrides_of_loaded_rules (H:=demo_ssg) demo_transformer
           ["rule_a"; "xccdf_var=custom"; "rule_gone"] demo_world).
  intros rule_file e. simpl. unfold demo_rule_yaml.
  repeat case_decide; intros [= <-]; eauto.
Defined.
